(** * The PDK layer model of the KLayout pin tool

    A shallow embedding of [pymacros/pin_pdk_info.py]: the three dataclasses
    [NamedLayerGroup], [PinLayerInfo] and [PinPDKInfo], the queries
    [layer_groups], [layers_of_groups] and [pin_layer_info], the JSON
    persistence [read_json] / [write_json] and the registry
    [PinPDKInfoFactory]; and of the parts of [pymacros/pin_tool_plugin.py]
    that use them: the setup widget's list of layers and focus order, the
    layer lookups in the view, [activated] and [commit_place_pin]. *)

From stdpp Require Import base decidable option list sorting strings functions gmap.
From stdpp Require Import pretty.

Local Open Scope string_scope.
Local Open Scope list_scope.
Set Warnings "-register-all,-clear-no-such-hyp".

(** ** Data model *)

Abbreviation LayerUniqueName := string.
Abbreviation LayerGroupUniqueName := string.

(** [@dataclass class NamedLayerGroup] *)
Record NamedLayerGroup : Type := mkNamedLayerGroup {
  name : LayerGroupUniqueName;
  layers : list LayerUniqueName
}.

(** [@dataclass class PinLayerInfo].  The three group fields are annotated
    with [LayerGroupUniqueName] in the source, but every table built or
    loaded by the program stores lists of group names in them (see
    [dump_example_pdk_info]) and [pin_layer_info] concatenates them with
    [+] before handing them to [layers_of_groups]; they are lists here. *)
Record PinLayerInfo : Type := mkPinLayerInfo {
  short_layer_name : string;
  related_layers : list LayerGroupUniqueName;
  pin_layers : list LayerGroupUniqueName;
  label_layers : list LayerGroupUniqueName
}.

(** [@dataclass class PinPDKInfo] *)
Record PinPDKInfo : Type := mkPinPDKInfo {
  tech_name : string;
  layer_group_definitions : list NamedLayerGroup;
  pin_layer_infos : list PinLayerInfo
}.

#[global] Instance NamedLayerGroup_eq_dec : EqDecision NamedLayerGroup.
Proof. solve_decision. Defined.

#[global] Instance PinLayerInfo_eq_dec : EqDecision PinLayerInfo.
Proof. solve_decision. Defined.

#[global] Instance PinPDKInfo_eq_dec : EqDecision PinPDKInfo.
Proof. solve_decision. Defined.

(** ** Queries on one table *)

(** [def layer_groups(self, names)]:
    [[g for g in self.layer_group_definitions if g.name in names]] *)
Definition layer_groups (self : PinPDKInfo)
    (names : list LayerGroupUniqueName) : list NamedLayerGroup :=
  filter (λ g, name g ∈ names) (layer_group_definitions self).

(** The comprehension [[l for g in layer_groups for l in g.layers]]. *)
Definition group_layers (gs : list NamedLayerGroup) : list LayerUniqueName :=
  g ← gs; layers g.

Section Queries.

(** [list(set(xs))].  The iteration order of a Python set of strings is
    not specified (it depends on the string hashes and on the insertion
    history), so the conversion is a parameter of the model, known only
    to drop duplicates and to keep exactly the members of [xs]. *)
Variable list_of_set : list LayerUniqueName → list LayerUniqueName.
Hypothesis list_of_set_NoDup : ∀ xs, NoDup (list_of_set xs).
Hypothesis list_of_set_elem : ∀ xs x, x ∈ list_of_set xs ↔ x ∈ xs.

(** [def layers_of_groups(self, names)] *)
Definition layers_of_groups (self : PinPDKInfo)
    (names : list LayerGroupUniqueName) : list LayerUniqueName :=
  let layer_groups := layer_groups self names in
  list_of_set (group_layers layer_groups).

(** The body of the [for pli in self.pin_layer_infos] loop of
    [pin_layer_info], run over the entries that are still to be visited.
    Falling off the end of the loop is Python's implicit [return None]. *)
Fixpoint pin_layer_info_loop (self : PinPDKInfo) (plis : list PinLayerInfo)
    (related_layer : LayerUniqueName) : option PinLayerInfo :=
  match plis with
  | [] => None
  | pli :: rest =>
      if decide (related_layer = short_layer_name pli) then Some pli
      else
        let related :=
          layers_of_groups self
            ((related_layers pli ++ pin_layers pli) ++ label_layers pli) in
        if decide (related_layer ∈ related) then Some pli
        else pin_layer_info_loop self rest related_layer
  end.

(** [def pin_layer_info(self, related_layer)] *)
Definition pin_layer_info (self : PinPDKInfo)
    (related_layer : LayerUniqueName) : option PinLayerInfo :=
  pin_layer_info_loop self (pin_layer_infos self) related_layer.

(** An entry matches a layer when either test of the loop body succeeds. *)
Definition entry_matches (self : PinPDKInfo) (related_layer : LayerUniqueName)
    (pli : PinLayerInfo) : Prop :=
  related_layer = short_layer_name pli
  ∨ related_layer ∈
      layers_of_groups self
        ((related_layers pli ++ pin_layers pli) ++ label_layers pli).

#[global] Instance entry_matches_dec self l pli :
  Decision (entry_matches self l pli).
Proof. unfold entry_matches. apply _. Defined.

End Queries.

(** ** Outcomes of fallible code *)

(** The exceptions [read_json] can leave with; the registry catches all of
    them with [except Exception]. *)
Inductive Exception : Type :=
| OSError            (* [open(path)] fails *)
| JSONDecodeError    (* [json.load]: the file is not a JSON document *)
| FromDictError.     (* [dataclass_from_dict]: a field is missing or ill-typed *)

Inductive result (A : Type) : Type :=
| Ok (a : A)
| Raise (e : Exception).
Arguments Ok {A} a.
Arguments Raise {A} e.

#[global] Instance result_ret : MRet result := λ A a, Ok a.
#[global] Instance result_bind : MBind result := λ A B f m,
  match m with
  | Ok a => f a
  | Raise e => Raise e
  end.

#[global] Instance Exception_eq_dec : EqDecision Exception.
Proof. solve_decision. Defined.

(** [[f(x) for x in xs]] where [f] may raise: the first exception leaves. *)
Fixpoint traverse {A B} (f : A → result B) (xs : list A) : result (list B) :=
  match xs with
  | [] => Ok []
  | x :: rest => y ← f x; ys ← traverse f rest; mret (y :: ys)
  end.

(** ** JSON documents *)

(** The values [json.load] builds and [json.dump] prints.  An object keeps
    its members in document order.  Floating-point numbers are left out: no
    field of the table format holds a number. *)
Inductive json : Type :=
| JNull
| JBool (b : bool)
| JInt (z : Z)
| JStr (s : string)
| JList (items : list json)
| JDict (members : list (string * json)).

(** [d[key]] on the dict read from an object: of two members with the same
    key the later one is kept by [json.load]. *)
Fixpoint dict_get (members : list (string * json)) (key : string)
    : option json :=
  match members with
  | [] => None
  | (k, v) :: rest =>
      match dict_get rest key with
      | Some w => Some w
      | None => if decide (k = key) then Some v else None
      end
  end.

(** [dataclasses.asdict]: every dataclass becomes a dict keyed by its field
    names in declaration order, every list a list of converted items. *)
Definition asdict_strs (xs : list string) : json := JList (JStr <$> xs).

Definition asdict_group (g : NamedLayerGroup) : json :=
  JDict [("name", JStr (name g)); ("layers", asdict_strs (layers g))].

Definition asdict_pin (p : PinLayerInfo) : json :=
  JDict [("short_layer_name", JStr (short_layer_name p));
         ("related_layers", asdict_strs (related_layers p));
         ("pin_layers", asdict_strs (pin_layers p));
         ("label_layers", asdict_strs (label_layers p))].

Definition asdict (self : PinPDKInfo) : json :=
  JDict [("tech_name", JStr (tech_name self));
         ("layer_group_definitions",
            JList (asdict_group <$> layer_group_definitions self));
         ("pin_layer_infos", JList (asdict_pin <$> pin_layer_infos self))].

(** Modelled from the spec: [dataclass_from_dict] of the package
    [klayout_plugin_utils.dataclass_dict_helpers], which is imported by the
    source and not part of it.  The spec describes it as loading the JSON
    document into the dataclasses by matching fields by name, over the file
    format [tech_name] (string), [layer_group_definitions] (list of
    [{name, layers: [string...]}]) and [pin_layer_infos] (list of
    [{short_layer_name, related_layers, pin_layers, label_layers}]), and as
    failing on a malformed structure, a missing field or a wrong type.
    Members the dataclass has no field for are not looked at. *)
Definition from_dict_str (v : json) : result string :=
  match v with
  | JStr s => Ok s
  | _ => Raise FromDictError
  end.

(** Modelled from the spec: the part of [dataclass_from_dict] that loads a
    field of list type, item by item. *)
Definition from_dict_list {A} (f : json → result A) (v : json)
    : result (list A) :=
  match v with
  | JList items => traverse f items
  | _ => Raise FromDictError
  end.

(** Modelled from the spec: the part of [dataclass_from_dict] that finds
    the member named like a field; a missing member is a failure. *)
Definition from_dict_field {A} (f : json → result A) (key : string)
    (v : json) : result A :=
  match v with
  | JDict members =>
      match dict_get members key with
      | Some w => f w
      | None => Raise FromDictError
      end
  | _ => Raise FromDictError
  end.

(** Modelled from the spec: [dataclass_from_dict] at [NamedLayerGroup]. *)
Definition from_dict_group (v : json) : result NamedLayerGroup :=
  n ← from_dict_field from_dict_str "name" v;
  ls ← from_dict_field (from_dict_list from_dict_str) "layers" v;
  mret (mkNamedLayerGroup n ls).

(** Modelled from the spec: [dataclass_from_dict] at [PinLayerInfo]. *)
Definition from_dict_pin (v : json) : result PinLayerInfo :=
  s ← from_dict_field from_dict_str "short_layer_name" v;
  r ← from_dict_field (from_dict_list from_dict_str) "related_layers" v;
  p ← from_dict_field (from_dict_list from_dict_str) "pin_layers" v;
  l ← from_dict_field (from_dict_list from_dict_str) "label_layers" v;
  mret (mkPinLayerInfo s r p l).

(** Modelled from the spec: [dataclass_from_dict] at [PinPDKInfo], the
    call [read_json] makes. *)
Definition dataclass_from_dict (v : json) : result PinPDKInfo :=
  t ← from_dict_field from_dict_str "tech_name" v;
  gs ← from_dict_field (from_dict_list from_dict_group)
         "layer_group_definitions" v;
  ps ← from_dict_field (from_dict_list from_dict_pin) "pin_layer_infos" v;
  mret (mkPinPDKInfo t gs ps).

(** ** Files *)

(** What a path holds.  The text of a JSON file is identified with the
    document it denotes: [json.dump] and [json.load] are the standard
    library's printer and parser, and no claim is about the characters. *)
Inductive File : Type :=
| NotJson
| JsonDocument (doc : json).

Section Persistence.

Context {Path : Type} `{!EqDecision Path}.

(** The files below the search path: what [open] finds at a path, and
    which paths can be opened for writing. *)
Record FileSystem : Type := mkFileSystem {
  fs_file : Path → option File;
  fs_writable : Path → bool
}.

(** [PinPDKInfo.read_json(path)] *)
Definition read_json (fs : FileSystem) (path : Path) : result PinPDKInfo :=
  match fs_file fs path with
  | None => Raise OSError
  | Some NotJson => Raise JSONDecodeError
  | Some (JsonDocument data) => dataclass_from_dict data
  end.

(** [self.write_json(path)]: the file system after the call. *)
Definition write_json (self : PinPDKInfo) (path : Path) (fs : FileSystem)
    : result FileSystem :=
  if fs_writable fs path then
    Ok (mkFileSystem (<[path := Some (JsonDocument (asdict self))]> (fs_file fs))
                     (fs_writable fs))
  else Raise OSError.

(** ** The registry, [PinPDKInfoFactory] *)

(** The order [sorted] uses on [pathlib.Path] values. *)
Variable path_le : relation Path.
Context `{!RelDecision path_le}.

(** [p.glob('*.json')] for a directory [p] of the search path; a
    directory that does not exist lists nothing. *)
Variable glob_json : Path → list Path.

(** [sorted({f for p in search_path for f in p.glob('*.json')})] *)
Definition json_files (search_path : list Path) : list Path :=
  merge_sort path_le (remove_dups (p ← search_path; glob_json p)).

(** The object under construction together with what [print] wrote: the
    file and the exception of every line
    ["Failed to parse PDK info file {f}, skipping this file…"]. *)
Record Factory : Type := mkFactory {
  pdk_infos_by_tech_name : gmap string PinPDKInfo;
  printed : list (Path * Exception)
}.

(** The body of [for f in json_files], with its [try] / [except]. *)
Definition load_file (fs : FileSystem) (self : Factory) (f : Path)
    : Factory :=
  match read_json fs f with
  | Ok pdk_info =>
      mkFactory (<[tech_name pdk_info := pdk_info]>
                   (pdk_infos_by_tech_name self))
                (printed self)
  | Raise e =>
      mkFactory (pdk_infos_by_tech_name self) (printed self ++ [(f, e)])
  end.

Definition load_files (fs : FileSystem) (self : Factory)
    (files : list Path) : Factory :=
  foldl (load_file fs) self files.

(** The line the [except] branch prints for a file, if it prints one. *)
Definition reported (fs : FileSystem) (f : Path)
    : option (Path * Exception) :=
  match read_json fs f with
  | Ok _ => None
  | Raise e => Some (f, e)
  end.

(** A file declares a technology when it parses to a table of that
    name. *)
Definition declares (fs : FileSystem) (f : Path) (tech : string) : Prop :=
  ∃ T, read_json fs f = Ok T ∧ tech_name T = tech.

(** [PinPDKInfoFactory.__init__(search_path)] *)
Definition factory_init (fs : FileSystem) (search_path : list Path)
    : Factory :=
  load_files fs (mkFactory ∅ []) (json_files search_path).

(** [def pdk_info(self, tech_name)]:
    [self._pdk_infos_by_tech_name.get(tech_name, None)] *)
Definition pdk_info (self : Factory) (tech : string) : option PinPDKInfo :=
  pdk_infos_by_tech_name self !! tech.

End Persistence.

Arguments FileSystem Path : clear implicits.
Arguments Factory Path : clear implicits.

(** ** Concrete tables and file systems *)

(** One admissible [list(set(xs))]: the members in order of first
    occurrence. *)
Definition first_seen : list LayerUniqueName → list LayerUniqueName :=
  remove_dups.

(** The layers of a metal as [dump_example_pdk_info] lists them. *)
Definition met_layers (n : string) : list LayerUniqueName :=
  [n +:+ ".drawing"; n +:+ ".pin"; n +:+ ".text"; n +:+ ".label"].

Definition metal_info (n : string) : PinLayerInfo :=
  mkPinLayerInfo n [n +:+ ".RelatedLayers"] [n +:+ ".PinLayers"]
                 [n +:+ ".LabelLayers"].

(** The Metal1 and Metal2 part of the table of [dump_example_pdk_info]. *)
Definition sg13g2_metals : PinPDKInfo :=
  mkPinPDKInfo "sg13g2"
    [mkNamedLayerGroup "Metal1.PinLayers" ["Metal1.pin"];
     mkNamedLayerGroup "Metal1.LabelLayers" ["Metal1.text"];
     mkNamedLayerGroup "Metal1.RelatedLayers"
       (met_layers "Metal1" ++ ["Metal1.diffprb"]);
     mkNamedLayerGroup "Metal2.PinLayers" ["Metal2.pin"];
     mkNamedLayerGroup "Metal2.LabelLayers" ["Metal2.text"];
     mkNamedLayerGroup "Metal2.RelatedLayers" (met_layers "Metal2")]
    [metal_info "Metal1"; metal_info "Metal2"].

(** A table whose layers carry the short names themselves: the via entry
    is stored first and relates the two metals it connects. *)
Definition via1_info : PinLayerInfo :=
  mkPinLayerInfo "Via1" ["Via1.RelatedLayers"] ["Via1.PinLayers"]
                 ["Via1.LabelLayers"].

Definition metal2_plain_info : PinLayerInfo :=
  mkPinLayerInfo "Metal2" ["Metal2.RelatedLayers"] ["Metal2.PinLayers"]
                 ["Metal2.LabelLayers"].

Definition plain_names_table : PinPDKInfo :=
  mkPinPDKInfo "plain"
    [mkNamedLayerGroup "Via1.PinLayers" ["Via1"];
     mkNamedLayerGroup "Via1.LabelLayers" ["Via1"];
     mkNamedLayerGroup "Via1.RelatedLayers" ["Via1"; "Metal1"; "Metal2"];
     mkNamedLayerGroup "Metal2.PinLayers" ["Metal2"];
     mkNamedLayerGroup "Metal2.LabelLayers" ["Metal2"];
     mkNamedLayerGroup "Metal2.RelatedLayers" ["Metal2"]]
    [via1_info; metal2_plain_info].

(** A [pdks] directory with the example table and a file that is not
    JSON. *)
Definition pdks_glob (dir : string) : list string :=
  if decide (dir = "pdks") then ["pdks/ihp-sg13g2.json"; "pdks/broken.json"]
  else [].

Definition pdks_fs : FileSystem string :=
  mkFileSystem
    (λ p, if decide (p = "pdks/ihp-sg13g2.json")
          then Some (JsonDocument (asdict sg13g2_metals))
          else if decide (p = "pdks/broken.json") then Some NotJson
          else None)
    (λ _, true).

(** Two directories whose files both declare the technology [sg13g2]; the
    user's copy has no pin entries. *)
Definition sg13g2_override : PinPDKInfo :=
  mkPinPDKInfo "sg13g2" (layer_group_definitions sg13g2_metals) [].

Definition override_glob (dir : string) : list string :=
  if decide (dir = "user") then ["user/sg13g2.json"]
  else if decide (dir = "pdks") then ["pdks/ihp-sg13g2.json"]
  else [].

Definition override_fs : FileSystem string :=
  mkFileSystem
    (λ p, if decide (p = "pdks/ihp-sg13g2.json")
          then Some (JsonDocument (asdict sg13g2_metals))
          else if decide (p = "user/sg13g2.json")
          then Some (JsonDocument (asdict sg13g2_override))
          else None)
    (λ _, true).

(** ** The table of [dump_example_pdk_info] *)

(** The inner function [pin_layer_info(prefix, key, i)] of
    [dump_example_pdk_info]; [f"{prefix}{i}"] prints [i] in decimal. *)
Definition dump_pin_layer_info (prefix key : string) (i : nat)
    : list PinLayerInfo :=
  [mkPinLayerInfo (prefix +:+ pretty i)
     [prefix +:+ pretty i +:+ ".RelatedLayers"]
     [prefix +:+ pretty i +:+ ".PinLayers"]
     [prefix +:+ pretty i +:+ ".LabelLayers"]].

(** The list [pin_layer_infos] as the two [for] loops and the [+=] leave
    it; [range(1, 6)] is [seq 1 5] and [range(1, 3)] is [seq 1 2]. *)
Definition example_pin_layer_infos : list PinLayerInfo :=
  let pin_layer_infos :=
    [mkPinLayerInfo "nBuLay" ["nBuLay.RelatedLayers"] ["nBuLay.PinLayers"]
                    ["nBuLay.LabelLayers"];
     mkPinLayerInfo "NWell" ["NWell.RelatedLayers"] ["NWell.PinLayers"]
                    ["NWell.LabelLayers"];
     mkPinLayerInfo "GatPoly" ["GatPoly.RelatedLayers"] ["GatPoly.PinLayers"]
                    ["GatPoly.LabelLayers"]] in
  let pin_layer_infos :=
    foldl (λ acc i, acc ++ dump_pin_layer_info "Metal" (pretty i) i)
          pin_layer_infos (seq 1 5) in
  let pin_layer_infos :=
    foldl (λ acc i, acc ++ dump_pin_layer_info "TopMetal" (pretty (5 + i)) i)
          pin_layer_infos (seq 1 2) in
  pin_layer_infos
  ++ [mkPinLayerInfo "IND" ["IND.RelatedLayers"] ["IND.PinLayers"]
                     ["IND.LabelLayers"]].

(** The table [pi] that [dump_example_pdk_info] builds. *)
Definition example_pdk_info : PinPDKInfo :=
  mkPinPDKInfo "sg13g2"
    [mkNamedLayerGroup "nBuLay.PinLayers" ["nBuLay.pin"];
     mkNamedLayerGroup "nBuLay.LabelLayers" ["nBuLay.label"];
     mkNamedLayerGroup "nBuLay.RelatedLayers"
       ["nBuLay.pin"; "nBuLay.drawing"; "nBuLay.label";
        "nBuLay.net"; "nBuLay.boundary"; "nBuLay.block"];
     mkNamedLayerGroup "NWell.PinLayers" ["NWell.pin"];
     mkNamedLayerGroup "NWell.LabelLayers" ["NWell.label"];
     mkNamedLayerGroup "NWell.RelatedLayers"
       ["NWell.pin"; "NWell.drawing"; "NWell.label";
        "NWell.net"; "NWell.boundary"];
     mkNamedLayerGroup "GatPoly.PinLayers" ["GatPoly.pin"];
     mkNamedLayerGroup "GatPoly.LabelLayers" ["GatPoly.label"];
     mkNamedLayerGroup "GatPoly.RelatedLayers"
       ["GatPoly.pin"; "GatPoly.drawing"; "GatPoly.label";
        "GatPoly.net"; "GatPoly.boundary"; "GatPoly.nofill"];
     mkNamedLayerGroup "Metal1.PinLayers" ["Metal1.pin"];
     mkNamedLayerGroup "Metal1.LabelLayers" ["Metal1.text"];
     mkNamedLayerGroup "Metal1.RelatedLayers"
       (met_layers "Metal1" ++ ["Metal1.diffprb"]);
     mkNamedLayerGroup "Metal2.PinLayers" ["Metal2.pin"];
     mkNamedLayerGroup "Metal2.LabelLayers" ["Metal2.text"];
     mkNamedLayerGroup "Metal2.RelatedLayers" (met_layers "Metal2");
     mkNamedLayerGroup "Metal3.PinLayers" ["Metal3.pin"];
     mkNamedLayerGroup "Metal3.LabelLayers" ["Metal3.text"];
     mkNamedLayerGroup "Metal3.RelatedLayers" (met_layers "Metal3");
     mkNamedLayerGroup "Metal4.PinLayers" ["Metal4.pin"];
     mkNamedLayerGroup "Metal4.LabelLayers" ["Metal4.text"];
     mkNamedLayerGroup "Metal4.RelatedLayers" (met_layers "Metal4");
     mkNamedLayerGroup "Metal5.PinLayers" ["Metal5.pin"];
     mkNamedLayerGroup "Metal5.LabelLayers" ["Metal5.text"];
     mkNamedLayerGroup "Metal5.RelatedLayers" (met_layers "Metal5");
     mkNamedLayerGroup "TopMetal1.PinLayers" ["TopMetal1.pin"];
     mkNamedLayerGroup "TopMetal1.LabelLayers" ["TopMetal1.text"];
     mkNamedLayerGroup "TopMetal1.RelatedLayers" (met_layers "TopMetal1");
     mkNamedLayerGroup "TopMetal2.PinLayers" ["TopMetal2.pin"];
     mkNamedLayerGroup "TopMetal2.LabelLayers" ["TopMetal2.text"];
     mkNamedLayerGroup "TopMetal2.RelatedLayers" (met_layers "TopMetal2");
     mkNamedLayerGroup "IND.PinLayers" ["IND.pin"];
     mkNamedLayerGroup "IND.LabelLayers" ["IND.text"];
     mkNamedLayerGroup "IND.RelatedLayers" ["IND.pin"; "IND.drawing"; "IND.text"]]
    example_pin_layer_infos.


(** ** The plugin, [pymacros/pin_tool_plugin.py] *)

(** *** The setup widget *)

(** The widget that has the keyboard focus: one of the three fields of
    [PinToolSetupWidget], or none of them. *)
Inductive Focus : Type := PinValue | WValue | HValue | Elsewhere.

#[global] Instance Focus_eq_dec : EqDecision Focus.
Proof. solve_decision. Defined.

(** [w.hasFocus()] when the focus is at [focus]. *)
Definition hasFocus (w focus : Focus) : bool := bool_decide (w = focus).

(** [PinToolSetupWidget.focusNextPrevChild(next)]: the widget that
    [setFocus] is called on, and the value returned. *)
Definition focusNextPrevChild (next : bool) (focus : Focus) : Focus * bool :=
  let focus' :=
    if next then
      if hasFocus PinValue focus then WValue
      else if hasFocus WValue focus then HValue
      else PinValue
    else
      if hasFocus HValue focus then WValue
      else if hasFocus PinValue focus then HValue
      else PinValue in
  (focus', true).

(** [PinToolSetupWidget.navigateToNextTextField()] *)
Definition navigateToNextTextField (focus : Focus) : Focus :=
  (focusNextPrevChild true focus).1.

(** [PinToolSetupWidget.set_pdk_info(pdk_info)]: the items of the combo
    box [layer_value] after [clear()] and [addItems(new_items)]. *)
Definition set_pdk_info (pdk_info : option PinPDKInfo) : list string :=
  let new_items := ["None selected"] in
  match pdk_info with
  | Some pdk_info =>
      new_items ++ (short_layer_name <$> pin_layer_infos pdk_info)
  | None => new_items
  end.

(** *** The layers of the view *)

(** What the plugin reads of a [pya.LayerPropertiesNodeRef]. *)
Record LayerProperties : Type := mkLayerProperties {
  lp_name : string;
  lp_source : string;
  lp_layer_index : Z;
  lp_source_layer : Z;
  lp_source_datatype : Z;
  lp_visible : bool;
  lp_valid : bool
}.

#[global] Instance LayerProperties_eq_dec : EqDecision LayerProperties.
Proof. solve_decision. Defined.

(** [PinToolPlugin.get_current_layer_name()].  The argument is
    [self.view.current_layer]: [None], or an iterator whose [current()] is
    [None] or a layer.  [a or b] is [b] when the string [a] is empty. *)
Definition get_current_layer_name
    (current_layer : option (option LayerProperties)) : option string :=
  match current_layer with
  | None => None
  | Some None => None
  | Some (Some current_layer) =>
      let name :=
        if decide (lp_name current_layer = "") then lp_source current_layer
        else lp_name current_layer in
      if decide (name = "*/*@*") then None else Some name
  end.

(** [PinToolPlugin.visible_layer_indexes()], over [self.view.each_layer()]. *)
Fixpoint visible_layer_indexes (each_layer : list LayerProperties) : list Z :=
  match each_layer with
  | [] => []
  | lref :: rest =>
      if lp_visible lref && lp_valid lref then
        if decide (lp_layer_index lref = (-1)%Z) then visible_layer_indexes rest
        else lp_layer_index lref :: visible_layer_indexes rest
      else visible_layer_indexes rest
  end.

(** [PinToolPlugin.layer_properties_for_layer_name(name)], over the
    iterator [self.view.begin_layers()]. *)
Fixpoint layer_properties_for_layer_name (begin_layers : list LayerProperties)
    (name : string) : option LayerProperties :=
  match begin_layers with
  | [] => None
  | lp :: rest =>
      if decide (lp_name lp = name) then Some lp
      else if decide (lp_source lp = name) then Some lp
      else layer_properties_for_layer_name rest name
  end.

Section Plugin.

(** Python floats: the plugin computes the pin geometry with them and the
    model only passes them on. *)
Context {Float : Type}.

(** [list(set(xs))], as for [layers_of_groups]. *)
Variable list_of_set : list LayerUniqueName → list LayerUniqueName.

(** [self.layout.layer(layer, datatype)] of the host. *)
Variable layout_layer : Z → Z → Z.

(** [PinToolPlugin.layer_number_for_layer_name(name)] *)
Definition layer_number_for_layer_name (begin_layers : list LayerProperties)
    (name : string) : Z :=
  match layer_properties_for_layer_name begin_layers name with
  | None => (-1)%Z
  | Some lp =>
      let li := lp_layer_index lp in
      if decide (li ≠ (-1)%Z) then li
      else layout_layer (lp_source_layer lp) (lp_source_datatype lp)
  end.

(** [@dataclass class PinToolConfig] *)
Record PinToolConfig : Type := mkPinToolConfig {
  config_short_layer_name : option string;
  pin_label : string;
  width : Float;
  height : Float
}.

(** [PinToolSetupWidget.config_from_ui()], from the current text of the
    combo box and the values of the three fields. *)
Definition config_from_ui (lv : string) (pin_value : string)
    (w_value h_value : Float) : PinToolConfig :=
  let short_layer_name :=
    if decide (lv = "None selected") then None else Some lv in
  mkPinToolConfig short_layer_name pin_value w_value h_value.

(** The attributes of [PinToolPlugin] that the PDK model fills. *)
Record PinToolPlugin : Type := mkPinToolPlugin {
  self_pdk_info : option PinPDKInfo;
  self_pin_layer_info : option PinLayerInfo
}.

(** What [commit_place_pin] raises inside its [try]. *)
Inductive PlaceError : Type :=
| LayerIndexNotFound (ln : LayerUniqueName)
    (* [Exception("... can't find layer index for layer {ln})")] *)
| AttributeError.
    (* an attribute of [None] is read *)

(** The calls [commit_place_pin] makes on the host, in order.  A box is
    given by the click position and the configured width and height it is
    computed from, a text by its label and position. *)
Inductive HostCall : Type :=
| ClearMarkers
| MessageBox (text : string)
| Transaction (description : string)
| InsertBox (lyr : Z) (dpoint : Float * Float) (w h : Float)
| InsertText (lyr : Z) (label : string) (dpoint : Float * Float)
| ConfigSave (label : string) (w h : Float)
| PrintCaught (e : PlaceError)
| Commit.

(** The first [for] loop of [commit_place_pin]: the calls made, and the
    exception that ended the loop, if one did. *)
Fixpoint place_boxes (begin_layers : list LayerProperties)
    (config : PinToolConfig) (dpoint : Float * Float)
    (lns : list LayerUniqueName) : list HostCall * option PlaceError :=
  match lns with
  | [] => ([], None)
  | ln :: rest =>
      let lyr := layer_number_for_layer_name begin_layers ln in
      if decide (lyr = (-1)%Z) then ([], Some (LayerIndexNotFound ln))
      else
        let '(calls, e) := place_boxes begin_layers config dpoint rest in
        (InsertBox lyr dpoint (width config) (height config) :: calls, e)
  end.

(** The second [for] loop, with [config.save()] inside its body. *)
Fixpoint place_texts (begin_layers : list LayerProperties)
    (config : PinToolConfig) (dpoint : Float * Float)
    (lns : list LayerUniqueName) : list HostCall * option PlaceError :=
  match lns with
  | [] => ([], None)
  | ln :: rest =>
      let lyr := layer_number_for_layer_name begin_layers ln in
      if decide (lyr = (-1)%Z) then ([], Some (LayerIndexNotFound ln))
      else
        let '(calls, e) := place_texts begin_layers config dpoint rest in
        (InsertText lyr (pin_label config) dpoint
           :: ConfigSave (pin_label config) (width config) (height config)
           :: calls, e)
  end.

(** The body of the [try] of [commit_place_pin]. *)
Definition place_pin (begin_layers : list LayerProperties)
    (config : PinToolConfig) (dpoint : Float * Float) (pdk_info : PinPDKInfo)
    (pin_layer_info : option PinLayerInfo)
    : list HostCall * option PlaceError :=
  match pin_layer_info with
  | None => ([], Some AttributeError)
  | Some pli =>
      let '(boxes, e) :=
        place_boxes begin_layers config dpoint
          (layers_of_groups list_of_set pdk_info (pin_layers pli)) in
      match e with
      | Some e => (boxes, Some e)
      | None =>
          let '(texts, e) :=
            place_texts begin_layers config dpoint
              (layers_of_groups list_of_set pdk_info (label_layers pli)) in
          (boxes ++ texts, e)
      end
  end.

(** [PinToolPlugin.commit_place_pin(dpoint)], where [config] is what
    [self.setupDock.config_from_ui()] returns: the plugin after the call,
    the host calls in order, and the exception that leaves the method, if
    one does.  The assignment to [config.short_layer_name] changes a local
    object that is only saved, and [save] does not store that field. *)
Definition commit_place_pin (begin_layers : list LayerProperties)
    (config : PinToolConfig) (dpoint : Float * Float) (self : PinToolPlugin)
    : PinToolPlugin * list HostCall * option PlaceError :=
  match config_short_layer_name config with
  | None =>
      (self, [ClearMarkers; MessageBox "Please select a layer first"], None)
  | Some short_layer_name =>
      match self_pdk_info self with
      | None => (self, [ClearMarkers], Some AttributeError)
      | Some pdk_info =>
          let pli := pin_layer_info list_of_set pdk_info short_layer_name in
          let '(calls, e) :=
            place_pin begin_layers config dpoint pdk_info pli in
          (mkPinToolPlugin (Some pdk_info) pli,
           [ClearMarkers; Transaction "place pin"] ++ calls
           ++ match e with
              | Some e => [PrintCaught e]
              | None => []
              end
           ++ [Commit],
           None)
      end
  end.

(** [PinToolPlugin.update_tech()]: the new [self.pdk_info], from the name
    of the technology of the layout, if it has one. *)
Definition update_tech {Path : Type} (pdk_info_factory : Factory Path)
    (tech : option string) : option PinPDKInfo :=
  match tech with
  | None => None
  | Some tech_name => pdk_info pdk_info_factory tech_name
  end.

(** The part of [PinToolPlugin.activated()] after the dock is shown:
    the plugin after the call, the items [update_tech] gives the combo box
    through [set_pdk_info], and the configuration handed to [set_config].
    [config] is what [PinToolConfig.load()] returns. *)
Definition activated {Path : Type} (pdk_info_factory : Factory Path)
    (tech : option string) (current_layer : option (option LayerProperties))
    (config : PinToolConfig)
    : PinToolPlugin * list string * PinToolConfig :=
  let pdk_info := update_tech pdk_info_factory tech in
  let pli :=
    match pdk_info with
    | None => None
    | Some pdk_info =>
        match get_current_layer_name current_layer with
        | None => None
        | Some current_layer_name =>
            pin_layer_info list_of_set pdk_info current_layer_name
        end
    end in
  let config :=
    match pli with
    | Some pli =>
        mkPinToolConfig (Some (short_layer_name pli)) (pin_label config)
                        (width config) (height config)
    | None => config
    end in
  (mkPinToolPlugin pdk_info pli, set_pdk_info pdk_info, config).

End Plugin.

Arguments PinToolConfig Float : clear implicits.
Arguments HostCall Float : clear implicits.

(** *** A view and a click *)

(** Layers of a view on an sg13g2 layout: the Metal1 text layer is not in
    the layout yet, so its layer index is -1, and Metal2 has no text layer
    at all. *)
Definition example_view_layers : list LayerProperties :=
  [mkLayerProperties "Metal1.drawing" "8/0@1" 0 8 0 true true;
   mkLayerProperties "Metal1.pin" "8/2@1" 1 8 2 true true;
   mkLayerProperties "Metal1.text" "8/25@1" (-1) 8 25 true false;
   mkLayerProperties "" "Metal2.pin" 3 10 2 false true].

(** A [layout.layer] that numbers a new layer by its source. *)
Definition example_layout_layer (layer datatype : Z) : Z :=
  (100 * layer + datatype)%Z.

(** Floats stand as their decimal text in the examples. *)
Definition example_config (short_layer_name : option string)
    : PinToolConfig string :=
  mkPinToolConfig short_layer_name "VDD" "0.13" "0.13".

Definition example_dpoint : string * string := ("1.5", "2.0").

(** The registry of the [pdks] directory. *)
Definition example_factory : Factory string :=
  factory_init String.le pdks_glob pdks_fs ["pdks"].

(** * Properties *)

(** ** Group selection *)

Lemma elem_of_layer_groups T S g :
  g ∈ layer_groups T S ↔ g ∈ layer_group_definitions T ∧ name g ∈ S.
Proof. unfold layer_groups. rewrite list_elem_of_filter. tauto. Qed.

(** Only the membership of the stored group names in the input matters. *)
Lemma layer_groups_ext T S1 S2 :
  (∀ g, g ∈ layer_group_definitions T → name g ∈ S1 ↔ name g ∈ S2) →
  layer_groups T S1 = layer_groups T S2.
Proof.
  unfold layer_groups. intros Hagree.
  induction (layer_group_definitions T) as [|g gs IH]; [done|].
  rewrite !filter_cons.
  rewrite IH by (intros h Hh; apply Hagree; by right).
  pose proof (Hagree g ltac:(left)) as Hg.
  repeat case_decide; tauto.
Qed.

Lemma layer_groups_nil_names T : layer_groups T [] = [].
Proof.
  unfold layer_groups.
  induction (layer_group_definitions T) as [|g gs IH]; [done|].
  rewrite filter_cons, IH. case_decide as Hin; [|done].
  by apply elem_of_nil in Hin.
Qed.

Lemma layer_groups_no_match T S :
  (∀ n g, n ∈ S → g ∈ layer_group_definitions T → name g ≠ n) →
  layer_groups T S = [].
Proof.
  intros Hno. rewrite <-(layer_groups_nil_names T).
  apply layer_groups_ext. intros g Hg. split.
  - intros Hin. by destruct (Hno (name g) g Hin Hg).
  - intros Hin. by apply elem_of_nil in Hin.
Qed.

(** [filter] keeps every sublist that satisfies the test throughout. *)
Lemma sublist_filter_all {A} (P : A → Prop) `{!∀ x, Decision (P x)}
    (k l : list A) :
  k `sublist_of` l → Forall P k → k `sublist_of` filter P l.
Proof.
  induction 1 as [|x k l Hkl IH|x k l Hkl IH]; intros Hall.
  - constructor.
  - apply Forall_cons in Hall as [Hx Hk].
    rewrite filter_cons_True by done. constructor. by apply IH.
  - rewrite filter_cons. case_decide; [constructor|]; by apply IH.
Qed.

(** C3: [layer_groups] returns exactly the stored groups whose name is in
    the input, in stored order: the result is a sublist of the stored
    groups, all its names are in the input, it contains every sublist of
    the stored groups with that property, its members are the stored groups
    with a name in the input, and an input name that no stored group bears
    changes nothing.  The function is total and returns a new list; the
    table is an argument that it only reads. *)
Theorem layer_groups_exactly_named (T : PinPDKInfo)
    (S : list LayerGroupUniqueName) :
  layer_groups T S `sublist_of` layer_group_definitions T
  ∧ Forall (λ g, name g ∈ S) (layer_groups T S)
  ∧ (∀ k, k `sublist_of` layer_group_definitions T →
          Forall (λ g, name g ∈ S) k → k `sublist_of` layer_groups T S)
  ∧ (∀ g, g ∈ layer_groups T S ↔
          g ∈ layer_group_definitions T ∧ name g ∈ S)
  ∧ (∀ n, (∀ g, g ∈ layer_group_definitions T → name g ≠ n) →
          layer_groups T (n :: S) = layer_groups T S).
Proof.
  split_and!.
  - apply sublist_filter.
  - apply Forall_forall. intros g Hg. by apply elem_of_layer_groups in Hg as [_ ?].
  - intros k Hk Hall. by apply sublist_filter_all.
  - apply elem_of_layer_groups.
  - intros n Hn. apply layer_groups_ext. intros g Hg.
    rewrite elem_of_cons. specialize (Hn g Hg).
    split; [intros [Heq|?]; [by destruct Hn|done] | by right].
Qed.

(** ** Group expansion *)

Lemma elem_of_group_layers gs l :
  l ∈ group_layers gs ↔ ∃ g, g ∈ gs ∧ l ∈ layers g.
Proof.
  unfold group_layers. rewrite list_elem_of_bind.
  split; intros (g & ? & ?); eauto.
Qed.

Lemma list_to_set_group_layers gs :
  list_to_set (group_layers gs) =@{gset LayerUniqueName}
  ⋃ ((λ g, list_to_set (layers g)) <$> gs).
Proof.
  unfold group_layers. induction gs as [|g gs IH]; [done|].
  cbn [mbind list_bind fmap list_fmap union_list foldr].
  rewrite list_to_set_app_L. f_equal. exact IH.
Qed.

Section QueryProofs.

Variable list_of_set : list LayerUniqueName → list LayerUniqueName.
Hypothesis list_of_set_NoDup : ∀ xs, NoDup (list_of_set xs).
Hypothesis list_of_set_elem : ∀ xs x, x ∈ list_of_set xs ↔ x ∈ xs.

Abbreviation layersOfGroups := (layers_of_groups list_of_set).
Abbreviation resolve := (pin_layer_info list_of_set).
Abbreviation resolve_loop := (pin_layer_info_loop list_of_set).
Abbreviation matches := (entry_matches list_of_set).

Lemma list_of_set_nil : list_of_set [] = [].
Proof.
  destruct (list_of_set []) as [|x xs] eqn:Hnil; [done|].
  assert (x ∈ list_of_set []) as Hx by (rewrite Hnil; left).
  apply (proj1 (list_of_set_elem _ _)) in Hx. by apply elem_of_nil in Hx.
Qed.

Lemma list_to_set_list_of_set xs :
  list_to_set (list_of_set xs) =@{gset LayerUniqueName} list_to_set xs.
Proof.
  apply set_eq. intros x. rewrite !elem_of_list_to_set.
  apply list_of_set_elem.
Qed.

Lemma elem_of_layers_of_groups T S l :
  l ∈ layersOfGroups T S ↔
  ∃ g, g ∈ layer_group_definitions T ∧ name g ∈ S ∧ l ∈ layers g.
Proof.
  unfold layers_of_groups. cbv zeta.
  rewrite list_of_set_elem, elem_of_group_layers.
  split.
  - intros (g & Hg & Hl). apply elem_of_layer_groups in Hg as [? ?]. eauto.
  - intros (g & ? & ? & ?). exists g. split; [|done].
    by apply elem_of_layer_groups.
Qed.

Lemma layers_of_groups_ext T S1 S2 :
  (∀ n, n ∈ S1 ↔ n ∈ S2) → layersOfGroups T S1 = layersOfGroups T S2.
Proof.
  intros Hsame. unfold layers_of_groups. cbv zeta.
  by rewrite (layer_groups_ext T S1 S2).
Qed.

(** C4: viewed as a set, [layersOfGroups T S] is the union of the
    [layers] of the groups [layer_groups T S] returns, and the list holds
    no layer twice; it is empty when [S] is empty and when [S] selects no
    group. *)
Theorem layers_of_groups_union (T : PinPDKInfo)
    (S : list LayerGroupUniqueName) :
  list_to_set (layersOfGroups T S) =@{gset LayerUniqueName}
    ⋃ ((λ g, list_to_set (layers g)) <$> layer_groups T S)
  ∧ NoDup (layersOfGroups T S)
  ∧ (S = [] → layersOfGroups T S = [])
  ∧ (layer_groups T S = [] → layersOfGroups T S = []).
Proof.
  split_and!.
  - unfold layers_of_groups. cbv zeta.
    by rewrite list_to_set_list_of_set, list_to_set_group_layers.
  - apply list_of_set_NoDup.
  - intros ->. unfold layers_of_groups. cbv zeta.
    rewrite layer_groups_nil_names. apply list_of_set_nil.
  - intros Hnone. unfold layers_of_groups. cbv zeta.
    rewrite Hnone. apply list_of_set_nil.
Qed.

(** C5: every layer of [layersOfGroups T S] is listed by some group
    that [T] declares, and the result is empty when no name of [S] is the
    name of a group of [T]. *)
Theorem layers_of_groups_declared (T : PinPDKInfo)
    (S : list LayerGroupUniqueName) :
  (∀ l, l ∈ layersOfGroups T S →
        ∃ g, g ∈ layer_group_definitions T ∧ l ∈ layers g)
  ∧ ((∀ n g, n ∈ S → g ∈ layer_group_definitions T → name g ≠ n) →
     layersOfGroups T S = []).
Proof.
  split.
  - intros l Hl. apply elem_of_layers_of_groups in Hl as (g & ? & _ & ?).
    eauto.
  - intros Hno. unfold layers_of_groups. cbv zeta.
    rewrite layer_groups_no_match by done. apply list_of_set_nil.
Qed.

(** C10: [layersOfGroups T S] depends on [S] only through the set of
    names in it: two inputs with the same members give results that are
    equal as sets, and the concatenation
    [related_layers + pin_layers + label_layers] of [pin_layer_info]
    expands to the same set as any list [U] of the union of the three
    collections, which is the union of the three expansions. *)
Theorem layers_of_groups_names_as_set (T : PinPDKInfo)
    (S1 S2 : list LayerGroupUniqueName) :
  (∀ n, n ∈ S1 ↔ n ∈ S2) →
  list_to_set (layersOfGroups T S1) =@{gset LayerUniqueName}
    list_to_set (layersOfGroups T S2)
  ∧ ∀ (pli : PinLayerInfo) (U : list LayerGroupUniqueName),
      list_to_set U =@{gset LayerGroupUniqueName}
        list_to_set (related_layers pli) ∪ list_to_set (pin_layers pli)
        ∪ list_to_set (label_layers pli) →
      list_to_set (layersOfGroups T
        ((related_layers pli ++ pin_layers pli) ++ label_layers pli))
      =@{gset LayerUniqueName} list_to_set (layersOfGroups T U)
      ∧ list_to_set (layersOfGroups T U) =@{gset LayerUniqueName}
          list_to_set (layersOfGroups T (related_layers pli))
          ∪ list_to_set (layersOfGroups T (pin_layers pli))
          ∪ list_to_set (layersOfGroups T (label_layers pli)).
Proof.
  intros Hsame. split.
  - by rewrite (layers_of_groups_ext T S1 S2).
  - intros pli U HU.
    assert (∀ n, n ∈ (related_layers pli ++ pin_layers pli)
                       ++ label_layers pli ↔ n ∈ U) as Hmem.
    { intros n. rewrite <-(elem_of_list_to_set (C:=gset _) n U), HU.
      rewrite !elem_of_union, !elem_of_list_to_set, !elem_of_app. tauto. }
    split.
    + by rewrite (layers_of_groups_ext T _ U).
    + apply set_eq. intros l.
      rewrite !elem_of_union, !elem_of_list_to_set.
      rewrite !elem_of_layers_of_groups.
      setoid_rewrite <-Hmem. setoid_rewrite elem_of_app.
      setoid_rewrite elem_of_app. naive_solver.
Qed.

(** ** Resolving a layer *)

(** The loop returns the first entry, in stored order, for which one of
    its two tests succeeds. *)
Lemma pin_layer_info_loop_find T plis l :
  resolve_loop T plis l = snd <$> list_find (matches T l) plis.
Proof.
  induction plis as [|pli rest IH]; [done|].
  cbn [pin_layer_info_loop list_find]. cbv zeta.
  destruct (decide (l = short_layer_name pli)) as [Hname|Hname].
  { rewrite decide_True by (by left). done. }
  destruct (decide (l ∈ layersOfGroups T
     ((related_layers pli ++ pin_layers pli) ++ label_layers pli)))
    as [Hexp|Hexp].
  { rewrite decide_True by (by right). done. }
  rewrite decide_False by (by intros [?|?]).
  rewrite IH. by destruct (list_find _ rest) as [[i q]|].
Qed.

Lemma pin_layer_info_loop_first T before p after l :
  Forall (λ q, ¬ matches T l q) before →
  matches T l p →
  resolve_loop T (before ++ p :: after) l = Some p.
Proof.
  intros Hbefore Hp. induction Hbefore as [|q before Hq _ IH].
  - rewrite pin_layer_info_loop_find. cbn [app list_find].
    by rewrite decide_True.
  - rewrite pin_layer_info_loop_find in IH |- *. cbn [app list_find].
    rewrite decide_False by done.
    by destruct (list_find _ (before ++ p :: after)) as [[i r]|];
      simplify_eq/=.
Qed.

Lemma pin_layer_info_loop_None T plis l :
  resolve_loop T plis l = None ↔
  Forall (λ q, ¬ matches T l q) plis.
Proof.
  rewrite pin_layer_info_loop_find, fmap_None, list_find_None. done.
Qed.

(** C1, as the code has it: [resolve T (short_layer_name p)]
    returns [p] for an entry [p] of [T] whenever no entry stored before
    [p] has that short name or has it as a layer of its group expansion.
    The two tests are made entry by entry in one pass, so an earlier entry
    that matches by expansion is returned before [p] is looked at; in
    every case the call returns some entry of [T] that matches. *)
Theorem pin_layer_info_short_name (T : PinPDKInfo)
    (before after : list PinLayerInfo) (p : PinLayerInfo) :
  pin_layer_infos T = before ++ p :: after →
  (∃ q, resolve T (short_layer_name p) = Some q
        ∧ q ∈ pin_layer_infos T
        ∧ matches T (short_layer_name p) q)
  ∧ (Forall (λ q, ¬ matches T (short_layer_name p) q) before →
     resolve T (short_layer_name p) = Some p).
Proof.
  intros Hsplit. unfold pin_layer_info. split.
  - rewrite pin_layer_info_loop_find.
    destruct (list_find (matches T (short_layer_name p))
                (pin_layer_infos T)) as [[i q]|] eqn:Hfind.
    + apply list_find_Some in Hfind as (Hi & Hq & _).
      exists q. split_and!; [done| |done].
      apply list_elem_of_lookup. eauto.
    + apply list_find_None in Hfind.
      rewrite Hsplit in Hfind.
      apply Forall_app in Hfind as [_ Hp].
      apply Forall_cons in Hp as [Hp _].
      destruct Hp. by left.
  - intros Hbefore. rewrite Hsplit.
    apply pin_layer_info_loop_first; [done|by left].
Qed.

(** C2: a layer that is the short name of no entry of [T] and lies in
    the group expansion of no entry of [T] resolves to [None]. *)
Theorem pin_layer_info_unknown_layer (T : PinPDKInfo) (L : LayerUniqueName) :
  (∀ p, p ∈ pin_layer_infos T → L ≠ short_layer_name p) →
  (∀ p, p ∈ pin_layer_infos T →
        L ∉ layersOfGroups T
              ((related_layers p ++ pin_layers p) ++ label_layers p)) →
  resolve T L = None.
Proof.
  intros Hname Hexp. unfold pin_layer_info.
  apply pin_layer_info_loop_None, Forall_forall.
  intros q Hq [Hq1|Hq2].
  - by apply (Hname q).
  - by apply (Hexp q).
Qed.

End QueryProofs.

(** ** Persistence *)

Lemma traverse_fmap {A} (enc : A → json) (dec : json → result A) xs :
  (∀ a, dec (enc a) = Ok a) → traverse dec (enc <$> xs) = Ok xs.
Proof.
  intros Hinv. induction xs as [|x xs IH]; [done|].
  cbn [fmap list_fmap traverse]. fold (fmap enc xs).
  by rewrite Hinv, IH.
Qed.

Lemma from_dict_strs_asdict xs :
  from_dict_list from_dict_str (asdict_strs xs) = Ok xs.
Proof. unfold asdict_strs, from_dict_list. by apply traverse_fmap. Qed.

Lemma from_dict_group_asdict g : from_dict_group (asdict_group g) = Ok g.
Proof.
  destruct g as [n ls]. unfold from_dict_group, asdict_group.
  cbn [name layers].
  change (from_dict_field from_dict_str "name" _) with (Ok (A:=string) n).
  change (from_dict_field (from_dict_list from_dict_str) "layers" _)
    with (from_dict_list from_dict_str (asdict_strs ls)).
  by rewrite from_dict_strs_asdict.
Qed.

Lemma from_dict_pin_asdict p : from_dict_pin (asdict_pin p) = Ok p.
Proof.
  destruct p as [s r pn lb]. unfold from_dict_pin, asdict_pin.
  cbn [short_layer_name related_layers pin_layers label_layers].
  change (from_dict_field from_dict_str "short_layer_name" _)
    with (Ok (A:=string) s).
  change (from_dict_field (from_dict_list from_dict_str) "related_layers" _)
    with (from_dict_list from_dict_str (asdict_strs r)).
  change (from_dict_field (from_dict_list from_dict_str) "pin_layers" _)
    with (from_dict_list from_dict_str (asdict_strs pn)).
  change (from_dict_field (from_dict_list from_dict_str) "label_layers" _)
    with (from_dict_list from_dict_str (asdict_strs lb)).
  by rewrite !from_dict_strs_asdict.
Qed.

(** Reading back what [asdict] produced gives the table it came from. *)
Lemma dataclass_from_dict_asdict T : dataclass_from_dict (asdict T) = Ok T.
Proof.
  destruct T as [t gs ps]. unfold dataclass_from_dict, asdict.
  cbn [tech_name layer_group_definitions pin_layer_infos].
  change (from_dict_field from_dict_str "tech_name" _)
    with (Ok (A:=string) t).
  change (from_dict_field (from_dict_list from_dict_group)
            "layer_group_definitions" _)
    with (traverse from_dict_group (asdict_group <$> gs)).
  change (from_dict_field (from_dict_list from_dict_pin) "pin_layer_infos" _)
    with (traverse from_dict_pin (asdict_pin <$> ps)).
  rewrite (traverse_fmap asdict_group) by apply from_dict_group_asdict.
  rewrite (traverse_fmap asdict_pin) by apply from_dict_pin_asdict.
  done.
Qed.

Section PersistenceProofs.

Context {Path : Type} `{!EqDecision Path}.

Lemma read_json_written (T : PinPDKInfo) (path : Path) fs_files writable :
  read_json
    (mkFileSystem (<[path := Some (JsonDocument (asdict T))]> fs_files)
                  writable) path = Ok T.
Proof.
  unfold read_json. cbn [fs_file].
  rewrite fn_lookup_insert. apply dataclass_from_dict_asdict.
Qed.

(** C9: writing a table with [write_json] to a path that can be opened
    for writing succeeds, and [read_json] on the file system it leaves
    returns a table equal to the one written: the same [tech_name], the
    same groups and the same pin entries, field by field and in the same
    order.  Files at other paths are left as they were. *)
Theorem write_json_read_json (T : PinPDKInfo) (path : Path)
    (fs : FileSystem Path) :
  fs_writable fs path = true →
  ∃ fs', write_json T path fs = Ok fs'
         ∧ read_json fs' path = Ok T
         ∧ ∀ other, other ≠ path → fs_file fs' other = fs_file fs other.
Proof.
  intros Hw. unfold write_json. rewrite Hw.
  eexists. split_and!; [done|apply read_json_written|].
  intros other Hne. cbn [fs_file]. by rewrite fn_lookup_insert_ne.
Qed.

End PersistenceProofs.

(** ** The registry *)

Section RegistryProofs.

Context {Path : Type} `{!EqDecision Path}.
Variable path_le : relation Path.
Context `{!RelDecision path_le}.
Variable glob_json : Path → list Path.

Abbreviation discovered := (json_files path_le glob_json).
Abbreviation load := (factory_init path_le glob_json).

Implicit Types (fs : FileSystem Path) (self : Factory Path).
Implicit Types (f g : Path) (files : list Path) (tech : string).

Lemma load_files_cons fs self f files :
  load_files fs self (f :: files) = load_files fs (load_file fs self f) files.
Proof. done. Qed.

Lemma load_files_app fs self files1 files2 :
  load_files fs self (files1 ++ files2)
  = load_files fs (load_files fs self files1) files2.
Proof. apply foldl_app. Qed.

(** Every file is visited: the output is one line per file that fails,
    in processing order, whatever the other files do. *)
Lemma load_files_printed fs self files :
  printed (load_files fs self files)
  = printed self ++ omap (reported fs) files.
Proof.
  revert self. induction files as [|f files IH]; intros self.
  - by rewrite app_nil_r.
  - rewrite load_files_cons, IH. cbn [omap list_omap].
    unfold load_file, reported.
    destruct (read_json fs f) as [T|e]; cbn [printed]; [done|].
    by rewrite <-app_assoc.
Qed.

(** A technology no file declares keeps the entry it had. *)
Lemma load_files_lookup_other fs self files tech :
  Forall (λ f, ¬ declares fs f tech) files →
  pdk_info (load_files fs self files) tech = pdk_info self tech.
Proof.
  intros Hnone. revert self.
  induction Hnone as [|f files Hf _ IH]; intros self; [done|].
  rewrite load_files_cons, IH. unfold pdk_info, load_file.
  destruct (read_json fs f) as [T|e] eqn:Hread; cbn; [|done].
  apply lookup_insert_ne. intros Heq. apply Hf. by exists T.
Qed.

(** The last file that declares a technology provides its table. *)
Lemma load_files_lookup_last fs self files1 f files2 T :
  read_json fs f = Ok T →
  Forall (λ g, ¬ declares fs g (tech_name T)) files2 →
  pdk_info (load_files fs self (files1 ++ f :: files2)) (tech_name T)
  = Some T.
Proof.
  intros Hread Hlater.
  rewrite load_files_app, load_files_cons, load_files_lookup_other by done.
  unfold pdk_info, load_file. rewrite Hread. cbn.
  apply lookup_insert_eq.
Qed.

(** An entry is overwritten, never removed. *)
Lemma load_file_keeps fs self f tech :
  is_Some (pdk_info self tech) →
  is_Some (pdk_info (load_file fs self f) tech).
Proof.
  intros Hsome. unfold pdk_info, load_file.
  destruct (read_json fs f) as [T|e]; cbn; [|done].
  rewrite lookup_insert_is_Some. destruct (decide (tech_name T = tech)); auto.
Qed.

Lemma load_files_keeps fs self files tech :
  is_Some (pdk_info self tech) →
  is_Some (pdk_info (load_files fs self files) tech).
Proof.
  revert self. induction files as [|f files IH]; intros self Hsome; [done|].
  rewrite load_files_cons. by apply IH, load_file_keeps.
Qed.

Lemma load_file_registers fs self f tech :
  declares fs f tech → is_Some (pdk_info (load_file fs self f) tech).
Proof.
  intros (T & Hread & Htech). unfold pdk_info, load_file.
  rewrite Hread. cbn. rewrite Htech, lookup_insert_eq. eauto.
Qed.

(** Whatever is registered was parsed from a file that was visited. *)
Lemma load_files_lookup_Some fs self files tech T :
  pdk_info (load_files fs self files) tech = Some T →
  pdk_info self tech = Some T
  ∨ ∃ f, f ∈ files ∧ read_json fs f = Ok T ∧ tech_name T = tech.
Proof.
  revert self. induction files as [|f files IH]; intros self Hget.
  { by left. }
  rewrite load_files_cons in Hget. apply IH in Hget as [Hget|Hget].
  - unfold pdk_info, load_file in Hget.
    destruct (read_json fs f) as [T'|e] eqn:Hread; cbn in Hget.
    + destruct (decide (tech_name T' = tech)) as [Heq|Hne].
      * rewrite Heq, lookup_insert_eq in Hget. simplify_eq.
        right. exists f. split_and!; [left|done..].
      * rewrite lookup_insert_ne in Hget by done. by left.
    + by left.
  - destruct Hget as (g & ? & ? & ?). right. exists g.
    split_and!; [by right|done..].
Qed.

Lemma elem_of_discovered search_path f :
  f ∈ discovered search_path ↔
  ∃ dir, dir ∈ search_path ∧ f ∈ glob_json dir.
Proof.
  unfold json_files.
  rewrite merge_sort_Permutation, elem_of_remove_dups, list_elem_of_bind.
  split; intros (dir & ? & ?); eauto.
Qed.

Lemma NoDup_discovered search_path : NoDup (discovered search_path).
Proof.
  unfold json_files. rewrite merge_sort_Permutation. apply NoDup_remove_dups.
Qed.

(** A technology is registered exactly when a discovered file declares
    it, however many of the other files fail. *)
Lemma factory_init_registered fs search_path tech :
  is_Some (pdk_info (load fs search_path) tech) ↔
  ∃ f, f ∈ discovered search_path ∧ declares fs f tech.
Proof.
  unfold factory_init. split.
  - intros [T HT]. apply load_files_lookup_Some in HT as [HT|HT].
    + unfold pdk_info in HT. cbn in HT. by rewrite lookup_empty in HT.
    + destruct HT as (f & ? & ? & ?). exists f. split; [done|]. by exists T.
  - intros (f & Hf & Hdecl).
    apply list_elem_of_split in Hf as (files1 & files2 & ->).
    rewrite load_files_app, load_files_cons.
    by apply load_files_keeps, load_file_registers.
Qed.

(** C6: when the search path holds one file that parses and one that
    does not, the registry built holds the table of the first under its
    [tech_name] and nothing else, and one line naming the second file was
    printed, whichever of the two is visited first.  In general a file that
    fails never stops the loop: every failing file is reported once, in
    processing order, and the technology of every file that parses is
    registered.  When every file fails the registry is empty. *)
Theorem factory_init_skips_malformed fs (search_path : list Path) :
  (∀ good bad T e,
     (∀ f, (∃ dir, dir ∈ search_path ∧ f ∈ glob_json dir) ↔
           f = good ∨ f = bad) →
     good ≠ bad →
     read_json fs good = Ok T →
     read_json fs bad = Raise e →
     load fs search_path = mkFactory {[tech_name T := T]} [(bad, e)])
  ∧ printed (load fs search_path)
    = omap (reported fs) (discovered search_path)
  ∧ (∀ f T, f ∈ discovered search_path → read_json fs f = Ok T →
            is_Some (pdk_info (load fs search_path) (tech_name T)))
  ∧ ((∀ f, f ∈ discovered search_path → ∃ e, read_json fs f = Raise e) →
     pdk_infos_by_tech_name (load fs search_path) = ∅).
Proof.
  split_and!.
  - intros good bad T e Hfiles Hne Hgood Hbad.
    assert (discovered search_path ≡ₚ [good; bad]) as Hperm.
    { apply NoDup_Permutation.
      - apply NoDup_discovered.
      - apply NoDup_cons. split; [|apply NoDup_singleton].
        by intros ->%list_elem_of_singleton.
      - intros f. rewrite elem_of_discovered, Hfiles.
        rewrite elem_of_cons, list_elem_of_singleton. done. }
    symmetry in Hperm.
    apply Permutation_length_2_inv in Hperm as [Horder|Horder];
      unfold factory_init, load_files; rewrite Horder;
      cbn [foldl]; unfold load_file; rewrite Hgood, Hbad;
      cbn [pdk_infos_by_tech_name printed app]; rewrite ?Hgood, ?Hbad;
      by rewrite insert_empty.
  - unfold factory_init. by rewrite load_files_printed.
  - intros f T Hf Hread. apply factory_init_registered.
    exists f. split; [done|]. by exists T.
  - intros Hfail. apply map_eq. intros tech. rewrite lookup_empty.
    change (pdk_info (load fs search_path) tech = None).
    unfold factory_init. rewrite load_files_lookup_other; [done|].
    apply Forall_forall. intros f Hf (T & Hread & _).
    destruct (Hfail f Hf) as [e He]. congruence.
Qed.

(** C8: [pdk_info] reads the registry and nothing else: it returns the
    table stored under the name when there is one and [None] when there
    is none.  On a registry built by [__init__] the table returned was
    parsed from a discovered file that declares the name, and the answer
    is [None] exactly when no discovered file declares the name. *)
Theorem pdk_info_lookup self tech :
  (∀ T, pdk_infos_by_tech_name self !! tech = Some T →
        pdk_info self tech = Some T)
  ∧ (tech ∉ dom (pdk_infos_by_tech_name self) → pdk_info self tech = None)
  ∧ (∀ fs search_path,
       (∀ T, pdk_info (load fs search_path) tech = Some T →
             ∃ f, f ∈ discovered search_path
                  ∧ read_json fs f = Ok T ∧ tech_name T = tech)
       ∧ (pdk_info (load fs search_path) tech = None ↔
          ∀ f, f ∈ discovered search_path → ¬ declares fs f tech)).
Proof.
  split_and!.
  - by intros T HT.
  - intros Hdom. by apply not_elem_of_dom.
  - intros fs search_path. split.
    + intros T HT. unfold factory_init in HT.
      apply load_files_lookup_Some in HT as [HT|HT]; [|done].
      unfold pdk_info in HT. cbn in HT. by rewrite lookup_empty in HT.
    + split.
      * intros Hnone f Hf Hdecl.
        eapply is_Some_None. rewrite <-Hnone.
        apply factory_init_registered. eauto.
      * intros Hnone. unfold factory_init.
        rewrite load_files_lookup_other; [done|].
        by apply Forall_forall.
Qed.

Section Sorted.

Context `{!PartialOrder path_le, !Total path_le}.

(** The order in which the set comprehension hands its members to
    [sorted] does not matter. *)
Lemma discovered_any_set_order search_path (members : list Path) :
  members ≡ₚ remove_dups (dir ← search_path; glob_json dir) →
  merge_sort path_le members = discovered search_path.
Proof.
  intros Hperm. unfold json_files.
  apply (StronglySorted_unique path_le).
  - apply StronglySorted_merge_sort; apply _.
  - apply StronglySorted_merge_sort; apply _.
  - by rewrite !merge_sort_Permutation.
Qed.

(** Of the files that declare a technology, the greatest one in the
    path order provides the registered table. *)
Lemma factory_init_greatest_wins fs search_path f T :
  f ∈ discovered search_path →
  read_json fs f = Ok T →
  (∀ g, g ∈ discovered search_path → declares fs g (tech_name T) →
        path_le g f) →
  pdk_info (load fs search_path) (tech_name T) = Some T.
Proof.
  intros Hf Hread Hmax.
  pose proof (NoDup_discovered search_path) as Hnodup.
  assert (StronglySorted path_le (discovered search_path)) as Hsorted.
  { apply StronglySorted_merge_sort; apply _. }
  apply list_elem_of_split in Hf as (files1 & files2 & Hsplit).
  unfold factory_init. rewrite Hsplit in Hmax, Hnodup, Hsorted |- *.
  apply load_files_lookup_last; [done|].
  apply Forall_forall. intros g Hg Hdecl.
  apply NoDup_app in Hnodup as (_ & _ & Hnodup).
  apply NoDup_cons in Hnodup as [Hfresh _].
  apply StronglySorted_app_1_r in Hsorted.
  apply StronglySorted_cons in Hsorted as [Hafter _].
  rewrite Forall_forall in Hafter.
  assert (path_le g f) as Hle.
  { apply Hmax; [|done]. apply elem_of_app. right. by right. }
  assert (g = f) as -> by (apply (anti_symm path_le); auto).
  done.
Qed.

(** C7: when two discovered files declare the same [tech_name] and no
    third one does, the load reports nothing for either of them and
    [pdk_info] of that name returns the table of the one that is later
    in the path order. *)
Theorem factory_init_later_file_wins fs search_path f1 f2 T1 T2 :
  f1 ∈ discovered search_path →
  f2 ∈ discovered search_path →
  strict path_le f1 f2 →
  read_json fs f1 = Ok T1 →
  read_json fs f2 = Ok T2 →
  tech_name T1 = tech_name T2 →
  (∀ g, g ∈ discovered search_path → declares fs g (tech_name T2) →
        g = f1 ∨ g = f2) →
  pdk_info (load fs search_path) (tech_name T2) = Some T2
  ∧ (∀ e, ((f1, e) ∉ printed (load fs search_path))
          ∧ ((f2, e) ∉ printed (load fs search_path))).
Proof.
  intros Hf1 Hf2 [Hle _] Hread1 Hread2 Htech Honly. split.
  - apply (factory_init_greatest_wins fs search_path f2); [done..|].
    intros g Hg Hdecl. by destruct (Honly g Hg Hdecl) as [->| ->].
  - intros e. unfold factory_init. rewrite load_files_printed.
    cbn [printed app]. rewrite !list_elem_of_omap.
    split; intros (g & _ & Hrep); unfold reported in Hrep;
      destruct (read_json fs g) eqn:Hread; simplify_eq; congruence.
Qed.

End Sorted.

End RegistryProofs.

(** ** The properties on the example tables *)

Lemma first_seen_NoDup xs : NoDup (first_seen xs).
Proof. apply NoDup_remove_dups. Qed.

Lemma first_seen_elem xs x : x ∈ first_seen xs ↔ x ∈ xs.
Proof. apply elem_of_remove_dups. Qed.

(** The groups [Metal1.PinLayers] and [Metal2.LabelLayers] are selected in
    stored order; the name [Metal9.PinLayers] selects nothing. *)
Lemma layer_groups_exactly_named_witness :
  layer_groups sg13g2_metals
    ["Metal9.PinLayers"; "Metal2.LabelLayers"; "Metal1.PinLayers"]
  = [mkNamedLayerGroup "Metal1.PinLayers" ["Metal1.pin"];
     mkNamedLayerGroup "Metal2.LabelLayers" ["Metal2.text"]].
Proof.
  pose proof (layer_groups_exactly_named sg13g2_metals
    ["Metal2.LabelLayers"; "Metal1.PinLayers"]) as (_ & _ & _ & _ & Hskip).
  etrans; [apply (Hskip "Metal9.PinLayers")|by vm_compute].
  apply Forall_forall. compute_done.
Defined.

(** The pin and label groups of Metal1 expand to the two layers. *)
Lemma layers_of_groups_union_witness :
  list_to_set (layers_of_groups first_seen sg13g2_metals
                 ["Metal1.PinLayers"; "Metal1.LabelLayers"])
  =@{gset LayerUniqueName}
  ⋃ ((λ g, list_to_set (layers g)) <$>
       layer_groups sg13g2_metals ["Metal1.PinLayers"; "Metal1.LabelLayers"]).
Proof.
  exact (proj1 (layers_of_groups_union first_seen first_seen_NoDup
                  first_seen_elem sg13g2_metals
                  ["Metal1.PinLayers"; "Metal1.LabelLayers"])).
Defined.

(** No group of the example table is called [Metal9.PinLayers]. *)
Lemma layers_of_groups_declared_witness :
  layers_of_groups first_seen sg13g2_metals ["Metal9.PinLayers"] = [].
Proof.
  apply (proj2 (layers_of_groups_declared first_seen first_seen_elem
                  sg13g2_metals ["Metal9.PinLayers"])).
  intros n g ->%list_elem_of_singleton Hg. revert g Hg.
  apply Forall_forall. compute_done.
Defined.

(** Order and repetition of the input names do not change the expansion. *)
Lemma layers_of_groups_names_as_set_witness :
  list_to_set (layers_of_groups first_seen sg13g2_metals
                 ["Metal1.PinLayers"; "Metal1.LabelLayers"])
  =@{gset LayerUniqueName}
  list_to_set (layers_of_groups first_seen sg13g2_metals
                 ["Metal1.LabelLayers"; "Metal1.PinLayers";
                  "Metal1.LabelLayers"]).
Proof.
  apply (layers_of_groups_names_as_set first_seen first_seen_elem
           sg13g2_metals).
  intros n. rewrite !elem_of_cons. tauto.
Defined.

(** [Metal2] is stored second and the Metal1 entry does not match it. *)
Lemma pin_layer_info_short_name_witness :
  pin_layer_info first_seen sg13g2_metals "Metal2"
  = Some (metal_info "Metal2").
Proof.
  apply (proj2 (pin_layer_info_short_name first_seen sg13g2_metals
                  [metal_info "Metal1"] [] (metal_info "Metal2") eq_refl)).
  compute_done.
Defined.

(** C1 fails as stated: in [plain_names_table] the entry [Metal2] is
    stored, but the via entry before it lists the layer [Metal2] in its
    related group, so resolving the short name [Metal2] returns the via
    entry, whatever order [list(set(...))] produces. *)
Lemma pin_layer_info_short_name_shadowed :
  metal2_plain_info ∈ pin_layer_infos plain_names_table
  ∧ pin_layer_info first_seen plain_names_table
      (short_layer_name metal2_plain_info) = Some via1_info
  ∧ (∀ list_of_set : list LayerUniqueName → list LayerUniqueName,
       (∀ xs x, x ∈ list_of_set xs ↔ x ∈ xs) →
       pin_layer_info list_of_set plain_names_table
         (short_layer_name metal2_plain_info) = Some via1_info)
  ∧ Some via1_info ≠ Some metal2_plain_info.
Proof.
  split_and!.
  - compute_done.
  - vm_compute. reflexivity.
  - intros list_of_set Helem.
    apply (pin_layer_info_loop_first list_of_set plain_names_table
             [] via1_info [metal2_plain_info]); [constructor|].
    right. unfold layers_of_groups. cbv zeta. apply Helem.
    compute_done.
  - by intros [=].
Defined.

(** [Metal3.text] is no short name and in no group of the example table. *)
Lemma pin_layer_info_unknown_layer_witness :
  pin_layer_info first_seen sg13g2_metals "Metal3.text" = None.
Proof.
  apply (pin_layer_info_unknown_layer first_seen sg13g2_metals "Metal3.text").
  - apply Forall_forall. compute_done.
  - apply Forall_forall. compute_done.
Defined.

(** Writing the example table and reading it back. *)
Lemma write_json_read_json_witness :
  ∃ fs', write_json sg13g2_metals "pdks/ihp-sg13g2.json" pdks_fs = Ok fs'
         ∧ read_json fs' "pdks/ihp-sg13g2.json" = Ok sg13g2_metals
         ∧ ∀ other, other ≠ "pdks/ihp-sg13g2.json" →
                    fs_file fs' other = fs_file pdks_fs other.
Proof.
  exact (write_json_read_json sg13g2_metals "pdks/ihp-sg13g2.json" pdks_fs
           eq_refl).
Defined.

(** Loading [pdks]: the broken file is reported, the table is registered. *)
Lemma factory_init_skips_malformed_witness :
  factory_init String.le pdks_glob pdks_fs ["pdks"]
  = mkFactory {[ "sg13g2" := sg13g2_metals ]}
              [("pdks/broken.json", JSONDecodeError)].
Proof.
  apply (proj1 (factory_init_skips_malformed String.le pdks_glob pdks_fs
                  ["pdks"])
           "pdks/ihp-sg13g2.json" "pdks/broken.json" sg13g2_metals
           JSONDecodeError).
  - intros f. split.
    + intros (dir & ->%list_elem_of_singleton & Hf).
      change (pdks_glob "pdks")
        with ["pdks/ihp-sg13g2.json"; "pdks/broken.json"] in Hf.
      rewrite !elem_of_cons, elem_of_nil in Hf. tauto.
    + intros Hf. exists "pdks". split; [by left|].
      change (pdks_glob "pdks")
        with ["pdks/ihp-sg13g2.json"; "pdks/broken.json"].
      rewrite !elem_of_cons. tauto.
  - compute_done.
  - by vm_compute.
  - by vm_compute.
Defined.

(** The user's file sorts after the one of [pdks] and provides the table. *)
Lemma factory_init_later_file_wins_witness :
  pdk_info (factory_init String.le override_glob override_fs ["user"; "pdks"])
    "sg13g2" = Some sg13g2_override.
Proof.
  assert (json_files String.le override_glob ["user"; "pdks"]
          = ["pdks/ihp-sg13g2.json"; "user/sg13g2.json"]) as Hfiles
    by (by vm_compute).
  apply (factory_init_later_file_wins String.le override_glob override_fs
           ["user"; "pdks"] "pdks/ihp-sg13g2.json" "user/sg13g2.json"
           sg13g2_metals sg13g2_override).
  - compute_done.
  - compute_done.
  - compute_done.
  - by vm_compute.
  - by vm_compute.
  - reflexivity.
  - intros g Hg _. rewrite Hfiles in Hg.
    rewrite !elem_of_cons, elem_of_nil in Hg. tauto.
Defined.

(** Looking up a technology the registry of [pdks] does not hold. *)
Lemma pdk_info_lookup_witness :
  pdk_info (factory_init String.le pdks_glob pdks_fs ["pdks"]) "sky130A"
  = None.
Proof.
  apply (proj1 (proj2 (pdk_info_lookup String.le pdks_glob
    (factory_init String.le pdks_glob pdks_fs ["pdks"]) "sky130A"))).
  compute_done.
Defined.

(** * Further properties of the table queries *)

Lemma filter_Forall_id {A} (P : A → Prop) `{!∀ x, Decision (P x)}
    (l : list A) :
  Forall P l → filter P l = l.
Proof.
  induction 1 as [|x l Hx _ IH]; [done|].
  by rewrite filter_cons_True, IH.
Qed.

(** X4: selecting by all the stored names returns the stored list unchanged,
    repeated names included. *)
Theorem layer_groups_all_names (T : PinPDKInfo) :
  layer_groups T (name <$> layer_group_definitions T)
  = layer_group_definitions T.
Proof.
  unfold layer_groups. apply filter_Forall_id, Forall_forall.
  intros g Hg. apply list_elem_of_fmap. by exists g.
Qed.

Section QueryExtras.

Variable list_of_set : list LayerUniqueName → list LayerUniqueName.
Hypothesis list_of_set_elem : ∀ xs x, x ∈ list_of_set xs ↔ x ∈ xs.

Abbreviation expansion T p :=
  (layers_of_groups list_of_set T
     ((related_layers p ++ pin_layers p) ++ label_layers p)).

(** X1: [pin_layer_info] returns an entry exactly when it is the first stored
    entry that matches the layer, by short name or by group expansion; it
    never returns an entry that is not stored or does not match. *)
Theorem pin_layer_info_first_match (T : PinPDKInfo) (L : LayerUniqueName)
    (p : PinLayerInfo) :
  pin_layer_info list_of_set T L = Some p ↔
  ∃ before after,
    pin_layer_infos T = before ++ p :: after
    ∧ Forall (λ q, ¬ entry_matches list_of_set T L q) before
    ∧ entry_matches list_of_set T L p.
Proof.
  unfold pin_layer_info. split.
  - rewrite pin_layer_info_loop_find. intros Hfind.
    destruct (list_find _ _) as [[i q]|] eqn:Hi; simplify_eq/=.
    apply list_find_Some in Hi as (Hi & Hp & Hbefore).
    exists (take i (pin_layer_infos T)), (drop (S i) (pin_layer_infos T)).
    split_and!; [|apply Forall_forall|done].
    + by rewrite <-(take_drop_middle _ i p) at 1.
    + intros q Hq. apply list_elem_of_lookup in Hq as [j Hj].
      pose proof (lookup_lt_Some _ _ _ Hj) as Hlt.
      rewrite lookup_take_lt in Hj
        by (rewrite length_take in Hlt; lia).
      apply (Hbefore j q); [done|]. rewrite length_take in Hlt. lia.
  - intros (before & after & -> & Hbefore & Hp).
    by apply pin_layer_info_loop_first.
Qed.

(** X2: a layer is in [layers_of_groups T S] exactly when a stored group with a
    name in [S] lists it; groups that share a name all contribute. *)
Theorem layers_of_groups_member (T : PinPDKInfo)
    (S : list LayerGroupUniqueName) (l : LayerUniqueName) :
  l ∈ layers_of_groups list_of_set T S ↔
  ∃ g, g ∈ layer_group_definitions T ∧ name g ∈ S ∧ l ∈ layers g.
Proof. by apply elem_of_layers_of_groups. Qed.

(** X3: expanding a concatenation of name lists gives the union of the two
    expansions, and a longer list of names never loses a layer. *)
Theorem layers_of_groups_app (T : PinPDKInfo)
    (S1 S2 : list LayerGroupUniqueName) :
  list_to_set (layers_of_groups list_of_set T (S1 ++ S2))
  =@{gset LayerUniqueName}
    list_to_set (layers_of_groups list_of_set T S1)
    ∪ list_to_set (layers_of_groups list_of_set T S2)
  ∧ (∀ l, l ∈ layers_of_groups list_of_set T S1 →
          l ∈ layers_of_groups list_of_set T (S1 ++ S2)).
Proof.
  split.
  - apply set_eq. intros l.
    rewrite elem_of_union, !elem_of_list_to_set.
    rewrite !elem_of_layers_of_groups by done.
    setoid_rewrite elem_of_app. naive_solver.
  - intros l. rewrite !elem_of_layers_of_groups by done.
    setoid_rewrite elem_of_app. naive_solver.
Qed.

Lemma pin_layer_info_elem (T : PinPDKInfo) (L : LayerUniqueName)
    (p : PinLayerInfo) :
  pin_layer_info list_of_set T L = Some p → p ∈ pin_layer_infos T.
Proof.
  unfold pin_layer_info. rewrite pin_layer_info_loop_find. intros Hp.
  destruct (list_find _ _) as [[i q]|] eqn:Hfind; simplify_eq/=.
  apply list_find_Some in Hfind as (Hi & _). apply list_elem_of_lookup. eauto.
Qed.

Lemma pin_layer_info_fresh_short_name (T : PinPDKInfo) (p : PinLayerInfo) :
  NoDup (short_layer_name <$> pin_layer_infos T) →
  (∀ g, g ∈ layer_group_definitions T → short_layer_name p ∉ layers g) →
  p ∈ pin_layer_infos T →
  pin_layer_info list_of_set T (short_layer_name p) = Some p.
Proof.
  intros Hnodup Hfresh Hp.
  apply list_elem_of_split in Hp as (before & after & Hsplit).
  unfold pin_layer_info. rewrite Hsplit.
  apply pin_layer_info_loop_first; [|by left].
  apply Forall_forall. intros q Hq [Hname|Hexp].
  - rewrite Hsplit, fmap_app, fmap_cons in Hnodup.
    apply NoDup_app in Hnodup as (_ & Hdisj & _).
    apply (Hdisj (short_layer_name q)).
    + apply list_elem_of_fmap. by exists q.
    + rewrite <-Hname. left.
  - apply elem_of_layers_of_groups in Hexp as (g & Hg & _ & Hl); [|done].
    by apply (Hfresh g).
Qed.

(** X5: in a table whose short names are pairwise different, an entry whose
    short name is not a layer name of any group is found by its own short
    name. *)
Theorem pin_layer_info_own_short_name (T : PinPDKInfo) (p : PinLayerInfo) :
  NoDup (short_layer_name <$> pin_layer_infos T) →
  (∀ g, g ∈ layer_group_definitions T → short_layer_name p ∉ layers g) →
  p ∈ pin_layer_infos T →
  pin_layer_info list_of_set T (short_layer_name p) = Some p.
Proof. apply pin_layer_info_fresh_short_name. Qed.

(** X6: in a table where no short name is a layer name of a group, a layer
    that lies in the group expansion of the entry [p] and of no other entry
    resolves to [p]. *)
Theorem pin_layer_info_layer_of_entry (T : PinPDKInfo) (p : PinLayerInfo)
    (L : LayerUniqueName) :
  (∀ q g, q ∈ pin_layer_infos T → g ∈ layer_group_definitions T →
          short_layer_name q ∉ layers g) →
  (∀ q, q ∈ pin_layer_infos T → L ∈ expansion T q → q = p) →
  p ∈ pin_layer_infos T →
  L ∈ expansion T p →
  pin_layer_info list_of_set T L = Some p.
Proof.
  intros Hfresh Hdisj Hp HL.
  assert (∀ q, q ∈ pin_layer_infos T →
               entry_matches list_of_set T L q → q = p) as Honly.
  { intros q Hq [Hname|Hexp]; [|by apply Hdisj].
    apply elem_of_layers_of_groups in HL as (g & Hg & _ & Hl); [|done].
    destruct (Hfresh q g Hq Hg). by rewrite <-Hname. }
  unfold pin_layer_info. rewrite pin_layer_info_loop_find.
  destruct (list_find _ _) as [[i q]|] eqn:Hfind.
  - apply list_find_Some in Hfind as (Hi & Hq & _). cbn. f_equal.
    apply Honly; [|done]. apply list_elem_of_lookup. eauto.
  - apply list_find_None in Hfind. rewrite Forall_forall in Hfind.
    destruct (Hfind p Hp). by right.
Qed.

End QueryExtras.

(** * Further properties of the registry *)

Section RegistryExtras.

Context {Path : Type} `{!EqDecision Path}.
Variable path_le : relation Path.
Context `{!RelDecision path_le, !PartialOrder path_le, !Total path_le}.
Variable glob_json : Path → list Path.

Abbreviation found := (json_files path_le glob_json).
Abbreviation registry := (factory_init path_le glob_json).

Lemma found_same_files (search_path1 search_path2 : list Path) :
  (∀ f, (∃ dir, dir ∈ search_path1 ∧ f ∈ glob_json dir) ↔
        (∃ dir, dir ∈ search_path2 ∧ f ∈ glob_json dir)) →
  found search_path1 = found search_path2.
Proof.
  intros Hsame. apply (StronglySorted_unique path_le).
  - apply StronglySorted_merge_sort; apply _.
  - apply StronglySorted_merge_sort; apply _.
  - apply NoDup_Permutation.
    + apply NoDup_discovered.
    + apply NoDup_discovered.
    + intros f. by rewrite !elem_of_discovered.
Qed.

(** X7: the registry and the printed lines depend only on the set of files the
    search path leads to: the order of the directories, a directory listed
    twice and a file reached through two directories change nothing. *)
Theorem factory_init_same_files (fs : FileSystem Path)
    (search_path1 search_path2 : list Path) :
  (∀ f, (∃ dir, dir ∈ search_path1 ∧ f ∈ glob_json dir) ↔
        (∃ dir, dir ∈ search_path2 ∧ f ∈ glob_json dir)) →
  registry fs search_path1 = registry fs search_path2.
Proof.
  intros Hsame. unfold factory_init.
  by rewrite (found_same_files search_path1 search_path2).
Qed.

(** X8: of any number of discovered files that declare a technology, the one
    that is last in the path order provides the registered table. *)
Theorem factory_init_last_declaring_file (fs : FileSystem Path)
    (search_path : list Path) (f : Path) (T : PinPDKInfo) :
  f ∈ found search_path →
  read_json fs f = Ok T →
  (∀ g, g ∈ found search_path → declares fs g (tech_name T) → path_le g f) →
  pdk_info (registry fs search_path) (tech_name T) = Some T.
Proof.
  intros Hf Hread Hlast.
  by apply (factory_init_greatest_wins path_le glob_json fs search_path f).
Qed.


End RegistryExtras.

(** * Properties of the plugin *)

(** X10: [focusNextPrevChild] always puts the focus on one of the three fields
    and reports the key as handled; from a field, three steps forward come
    back to it, and a step back undoes a step forward and conversely. *)
Theorem focusNextPrevChild_cycle (next : bool) (focus : Focus) :
  (focusNextPrevChild next focus).1 ≠ Elsewhere
  ∧ (focusNextPrevChild next focus).2 = true
  ∧ (focus ≠ Elsewhere →
     navigateToNextTextField
       (navigateToNextTextField (navigateToNextTextField focus)) = focus
     ∧ (focusNextPrevChild false (focusNextPrevChild true focus).1).1 = focus
     ∧ (focusNextPrevChild true (focusNextPrevChild false focus).1).1
       = focus).
Proof. by destruct next, focus. Qed.

(** X11: [get_current_layer_name] never returns the wildcard source ["*/*@*"];
    what it returns is the name of the current layer, or its source when
    the name is empty. *)
Theorem get_current_layer_name_Some
    (current_layer : option (option LayerProperties)) (n : string) :
  get_current_layer_name current_layer = Some n →
  n ≠ "*/*@*"
  ∧ ∃ lp, current_layer = Some (Some lp)
          ∧ ((lp_name lp ≠ "" ∧ n = lp_name lp)
             ∨ (lp_name lp = "" ∧ n = lp_source lp)).
Proof.
  destruct current_layer as [[lp|]|]; [|done..].
  unfold get_current_layer_name.
  destruct (decide (lp_name lp = "")) as [Hempty|Hname];
    (case_decide; [done|]); intros [= <-];
    (split; [done|]); exists lp; (split; [done|]); auto.
Qed.

(** X12: [visible_layer_indexes] lists exactly the layer indexes, other than -1,
    of the layers that are visible and valid. *)
Theorem visible_layer_indexes_spec (each_layer : list LayerProperties)
    (i : Z) :
  i ∈ visible_layer_indexes each_layer ↔
  i ≠ (-1)%Z
  ∧ ∃ lref, lref ∈ each_layer ∧ lp_visible lref = true
            ∧ lp_valid lref = true ∧ lp_layer_index lref = i.
Proof.
  induction each_layer as [|lref rest IH]; cbn [visible_layer_indexes].
  { split; [by intros ?%elem_of_nil|]. by intros (_ & ? & ?%elem_of_nil & _). }
  destruct (lp_visible lref) eqn:Hvis, (lp_valid lref) eqn:Hval; cbn [andb];
    try case_decide; rewrite ?elem_of_cons, IH; clear IH;
    (split; [intros Hi|intros (Hne & l & Hl & ? & ? & ?)]).
  all: try (destruct Hi as (? & l & ? & ?); split; [done|];
            exists l; split; [by right|done]).
  all: try (apply elem_of_cons in Hl as [->|Hl]; [congruence|];
            split; [done|]; by exists l).
  - destruct Hi as [->|(? & l & ? & ?)].
    + split; [done|]. exists lref. split_and!; [by left|done..].
    + split; [done|]. exists l. split; [by right|done].
  - apply elem_of_cons in Hl as [->|Hl]; [by left|].
    right. split; [done|]. by exists l.
Qed.

(** The lookup by name returns the first layer of the view whose name or
    whose source is the name asked for. *)
Lemma layer_properties_for_layer_name_find
    (begin_layers : list LayerProperties) (n : string) :
  layer_properties_for_layer_name begin_layers n
  = snd <$> list_find (λ lp, lp_name lp = n ∨ lp_source lp = n) begin_layers.
Proof.
  induction begin_layers as [|lp rest IH]; [done|].
  cbn [layer_properties_for_layer_name list_find].
  destruct (decide (lp_name lp = n)) as [Hname|Hname].
  { by rewrite decide_True by (by left). }
  destruct (decide (lp_source lp = n)) as [Hsrc|Hsrc].
  { by rewrite decide_True by (by right). }
  rewrite decide_False by (by intros [?|?]).
  rewrite IH. by destruct (list_find _ rest) as [[i q]|].
Qed.

Section PluginExtras.

Context {Float : Type}.
Variable list_of_set : list LayerUniqueName → list LayerUniqueName.
Variable layout_layer : Z → Z → Z.

Abbreviation number := (layer_number_for_layer_name layout_layer).
Abbreviation commit := (commit_place_pin list_of_set layout_layer).
Abbreviation box_on layers config dpoint :=
  (λ ln, InsertBox (number layers ln) dpoint (width config) (height config)).
Abbreviation text_on layers config dpoint :=
  (λ ln, [InsertText (number layers ln) (pin_label config) dpoint;
          ConfigSave (pin_label config) (width config) (height config)]).

Implicit Types (config : PinToolConfig Float) (dpoint : Float * Float).
Implicit Types (layers : list LayerProperties) (self : PinToolPlugin).

(** X13: [layer_number_for_layer_name] answers -1 for a name that no layer of
    the view has as its name or source; any other answer is the layer index
    of the first layer with that name or source, or what [layout.layer]
    returns for its source when that index is -1. *)
Theorem layer_number_for_layer_name_spec layers (n : string) :
  ((∀ lp, lp ∈ layers → lp_name lp ≠ n ∧ lp_source lp ≠ n) →
   layer_number_for_layer_name layout_layer layers n = (-1)%Z)
  ∧ (layer_number_for_layer_name layout_layer layers n ≠ (-1)%Z →
     ∃ before lp after,
       layers = before ++ lp :: after
       ∧ Forall (λ l, lp_name l ≠ n ∧ lp_source l ≠ n) before
       ∧ (lp_name lp = n ∨ lp_source lp = n)
       ∧ ((lp_layer_index lp ≠ (-1)%Z
           ∧ layer_number_for_layer_name layout_layer layers n
             = lp_layer_index lp)
          ∨ (lp_layer_index lp = (-1)%Z
             ∧ layer_number_for_layer_name layout_layer layers n
               = layout_layer (lp_source_layer lp) (lp_source_datatype lp)))).
Proof.
  unfold layer_number_for_layer_name.
  rewrite layer_properties_for_layer_name_find.
  destruct (list_find _ layers) as [[i lp]|] eqn:Hfind; cbn.
  - apply list_find_Some in Hfind as (Hi & Hlp & Hbefore). split.
    + intros Hnone. destruct (Hnone lp) as [? ?]; [|by destruct Hlp].
      apply list_elem_of_lookup. eauto.
    + intros Hnum. exists (take i layers), lp, (drop (S i) layers).
      split_and!; [by rewrite take_drop_middle| |done|].
      * apply Forall_forall. intros l Hl.
        apply list_elem_of_lookup in Hl as [j Hj].
        pose proof (lookup_lt_Some _ _ _ Hj) as Hlt.
        rewrite length_take in Hlt.
        rewrite lookup_take_lt in Hj by lia.
        assert (j < i)%nat as Hji by lia.
        pose proof (Hbefore j l Hj Hji) as Hno. split; intros ?; apply Hno; auto.
      * case_decide; [left|right]; [done|].
        split; [|done]. by destruct (decide (lp_layer_index lp = (-1)%Z)).
  - split; [done|]. by intros [].
Qed.

(** X14: the configuration [activated] hands to the dock selects no layer, or
    the short name of the entry that the current layer resolves to in the
    table registered for the technology of the layout; that name is one of
    the items [update_tech] has just put into the combo box. *)
Theorem activated_selection {Path : Type} (pdk_info_factory : Factory Path)
    (tech : option string) (current_layer : option (option LayerProperties))
    config (s : string) :
  config_short_layer_name config = None →
  config_short_layer_name
    (activated list_of_set pdk_info_factory tech current_layer config).2
  = Some s →
  s ∈ (activated list_of_set pdk_info_factory tech current_layer config).1.2
  ∧ ∃ tech_name T n p,
      tech = Some tech_name
      ∧ pdk_info pdk_info_factory tech_name = Some T
      ∧ get_current_layer_name current_layer = Some n
      ∧ pin_layer_info list_of_set T n = Some p
      ∧ p ∈ pin_layer_infos T
      ∧ short_layer_name p = s
      ∧ (activated list_of_set pdk_info_factory tech current_layer config).1.1
        = mkPinToolPlugin (Some T) (Some p).
Proof.
  intros Hnone. unfold activated, update_tech. cbn [fst snd].
  destruct tech as [tech_name|]; [|by rewrite Hnone].
  destruct (pdk_info pdk_info_factory tech_name) as [T|] eqn:HT;
    [|by rewrite Hnone].
  destruct (get_current_layer_name current_layer) as [n|] eqn:Hn;
    [|by rewrite Hnone].
  destruct (pin_layer_info list_of_set T n) as [p|] eqn:Hp;
    [|by rewrite Hnone].
  cbn. intros [= <-].
  assert (p ∈ pin_layer_infos T) as Hin.
  { unfold pin_layer_info in Hp. rewrite pin_layer_info_loop_find in Hp.
    destruct (list_find _ _) as [[i q]|] eqn:Hfind; simplify_eq/=.
    apply list_find_Some in Hfind as (Hi & _). apply list_elem_of_lookup. eauto. }
  split.
  - right. apply list_elem_of_fmap. by exists p.
  - exists tech_name, T, n, p. by split_and!.
Qed.

(** *** Placing a pin *)

Lemma place_boxes_found layers config dpoint (lns : list LayerUniqueName) :
  Forall (λ ln, number layers ln ≠ (-1)%Z) lns →
  place_boxes layout_layer layers config dpoint lns
  = (box_on layers config dpoint <$> lns, None).
Proof.
  induction 1 as [|ln lns Hln _ IH]; [done|].
  cbn [place_boxes fmap list_fmap]. rewrite decide_False by done.
  by rewrite IH.
Qed.

Lemma place_boxes_missing layers config dpoint
    (before after : list LayerUniqueName) (ln : LayerUniqueName) :
  Forall (λ ln, number layers ln ≠ (-1)%Z) before →
  number layers ln = (-1)%Z →
  place_boxes layout_layer layers config dpoint (before ++ ln :: after)
  = (box_on layers config dpoint <$> before, Some (LayerIndexNotFound ln)).
Proof.
  intros Hbefore Hln. induction Hbefore as [|l before Hl _ IH].
  - cbn [app place_boxes]. by rewrite decide_True.
  - cbn [app place_boxes fmap list_fmap]. rewrite decide_False by done.
    by rewrite IH.
Qed.

Lemma place_texts_found layers config dpoint (lns : list LayerUniqueName) :
  Forall (λ ln, number layers ln ≠ (-1)%Z) lns →
  place_texts layout_layer layers config dpoint lns
  = (lns ≫= text_on layers config dpoint, None).
Proof.
  induction 1 as [|ln lns Hln _ IH]; [done|].
  cbn [place_texts]. rewrite decide_False by done.
  by rewrite IH.
Qed.

Lemma place_texts_missing layers config dpoint
    (before after : list LayerUniqueName) (ln : LayerUniqueName) :
  Forall (λ ln, number layers ln ≠ (-1)%Z) before →
  number layers ln = (-1)%Z →
  place_texts layout_layer layers config dpoint (before ++ ln :: after)
  = (before ≫= text_on layers config dpoint, Some (LayerIndexNotFound ln)).
Proof.
  intros Hbefore Hln. induction Hbefore as [|l before Hl _ IH].
  - cbn [app place_texts]. by rewrite decide_True.
  - cbn [app place_texts]. rewrite decide_False by done.
    by rewrite IH.
Qed.

(** X15: when the selected short name resolves to an entry and the view has a
    layer for every pin layer and every label layer of that entry,
    [commit_place_pin] inserts one box on each pin layer and one text on
    each label layer inside one committed transaction, saves the
    configuration after each text, prints nothing and lets no exception
    out. *)
Theorem commit_place_pin_all_layers_found layers config dpoint self
    (s : string) (T : PinPDKInfo) (p : PinLayerInfo) :
  config_short_layer_name config = Some s →
  self_pdk_info self = Some T →
  pin_layer_info list_of_set T s = Some p →
  Forall (λ ln, number layers ln ≠ (-1)%Z)
         (layers_of_groups list_of_set T (pin_layers p)) →
  Forall (λ ln, number layers ln ≠ (-1)%Z)
         (layers_of_groups list_of_set T (label_layers p)) →
  commit layers config dpoint self
  = (mkPinToolPlugin (Some T) (Some p),
     [ClearMarkers; Transaction "place pin"]
     ++ (box_on layers config dpoint
           <$> layers_of_groups list_of_set T (pin_layers p))
     ++ (layers_of_groups list_of_set T (label_layers p)
           ≫= text_on layers config dpoint)
     ++ [Commit],
     None).
Proof.
  intros Hs HT Hp Hpins Hlabels.
  unfold commit_place_pin, place_pin. rewrite Hs, HT, Hp.
  rewrite place_boxes_found, place_texts_found by done.
  by rewrite app_nil_l, <-!app_assoc.
Qed.

(** X16: when the view has no layer for one of the pin layers, the boxes on the
    pin layers visited before it stay inserted, no text is inserted, the
    configuration is not saved, the exception is printed and the
    transaction is committed all the same. *)
Theorem commit_place_pin_missing_pin_layer layers config dpoint self
    (s : string) (T : PinPDKInfo) (p : PinLayerInfo)
    (before after : list LayerUniqueName) (ln : LayerUniqueName) :
  config_short_layer_name config = Some s →
  self_pdk_info self = Some T →
  pin_layer_info list_of_set T s = Some p →
  layers_of_groups list_of_set T (pin_layers p) = before ++ ln :: after →
  Forall (λ ln, number layers ln ≠ (-1)%Z) before →
  number layers ln = (-1)%Z →
  commit layers config dpoint self
  = (mkPinToolPlugin (Some T) (Some p),
     [ClearMarkers; Transaction "place pin"]
     ++ (box_on layers config dpoint <$> before)
     ++ [PrintCaught (LayerIndexNotFound ln); Commit],
     None).
Proof.
  intros Hs HT Hp Hsplit Hbefore Hln.
  unfold commit_place_pin, place_pin. rewrite Hs, HT, Hp, Hsplit.
  by rewrite place_boxes_missing by done.
Qed.

(** X17: when every pin layer is found and the view has no layer for one of the
    label layers, every box and the texts on the label layers visited
    before it stay inserted, and the transaction is committed after the
    exception is printed. *)
Theorem commit_place_pin_missing_label_layer layers config dpoint self
    (s : string) (T : PinPDKInfo) (p : PinLayerInfo)
    (before after : list LayerUniqueName) (ln : LayerUniqueName) :
  config_short_layer_name config = Some s →
  self_pdk_info self = Some T →
  pin_layer_info list_of_set T s = Some p →
  Forall (λ ln, number layers ln ≠ (-1)%Z)
         (layers_of_groups list_of_set T (pin_layers p)) →
  layers_of_groups list_of_set T (label_layers p) = before ++ ln :: after →
  Forall (λ ln, number layers ln ≠ (-1)%Z) before →
  number layers ln = (-1)%Z →
  commit layers config dpoint self
  = (mkPinToolPlugin (Some T) (Some p),
     [ClearMarkers; Transaction "place pin"]
     ++ (box_on layers config dpoint
           <$> layers_of_groups list_of_set T (pin_layers p))
     ++ (before ≫= text_on layers config dpoint)
     ++ [PrintCaught (LayerIndexNotFound ln); Commit],
     None).
Proof.
  intros Hs HT Hp Hpins Hsplit Hbefore Hln.
  unfold commit_place_pin, place_pin. rewrite Hs, HT, Hp, Hsplit.
  rewrite place_boxes_found, place_texts_missing by done.
  by rewrite <-!app_assoc.
Qed.

Lemma place_boxes_calls layers config dpoint (lns : list LayerUniqueName)
    (c : HostCall Float) :
  c ∈ (place_boxes layout_layer layers config dpoint lns).1 →
  ∃ ln, c = box_on layers config dpoint ln.
Proof.
  induction lns as [|ln lns IH]; cbn [place_boxes].
  { by intros ?%elem_of_nil. }
  case_decide; [by intros ?%elem_of_nil|].
  destruct (place_boxes layout_layer layers config dpoint lns) as [calls e].
  cbn [fst] in *. intros [->|Hc]%elem_of_cons; eauto.
Qed.

Lemma place_texts_calls layers config dpoint (lns : list LayerUniqueName)
    (c : HostCall Float) :
  c ∈ (place_texts layout_layer layers config dpoint lns).1 →
  (∃ ln, c = InsertText (number layers ln) (pin_label config) dpoint)
  ∨ c = ConfigSave (pin_label config) (width config) (height config).
Proof.
  induction lns as [|ln lns IH]; cbn [place_texts].
  { by intros ?%elem_of_nil. }
  case_decide; [by intros ?%elem_of_nil|].
  destruct (place_texts layout_layer layers config dpoint lns) as [calls e].
  cbn [fst] in *. intros [->|[->|Hc]%elem_of_cons]%elem_of_cons; eauto.
Qed.

Lemma place_texts_saved layers config dpoint (lns : list LayerUniqueName) :
  (∃ lyr label d,
     InsertText lyr label d
     ∈ (place_texts layout_layer layers config dpoint lns).1)
  ↔ (∃ label w h,
       ConfigSave label w h
       ∈ (place_texts layout_layer layers config dpoint lns).1).
Proof.
  destruct lns as [|ln lns]; cbn [place_texts].
  { split; [intros (? & ? & ? & ?%elem_of_nil)|intros (? & ? & ? & ?%elem_of_nil)];
      done. }
  case_decide.
  { split; [intros (? & ? & ? & ?%elem_of_nil)|intros (? & ? & ? & ?%elem_of_nil)];
      done. }
  destruct (place_texts layout_layer layers config dpoint lns) as [calls e].
  cbn [fst]. split; intros _.
  - eexists _, _, _. right. left.
  - eexists _, _, _. left.
Qed.

(** X18: with a table loaded and a layer selected, [commit_place_pin] lets no
    exception out, whatever is missing: the calls it makes are one
    transaction that is opened once and committed once at the end, and
    inside it the configuration is saved exactly when a text has been
    inserted, so never for an entry without label layers. *)
Theorem commit_place_pin_transaction layers config dpoint self
    (s : string) (T : PinPDKInfo) :
  config_short_layer_name config = Some s →
  self_pdk_info self = Some T →
  ∃ body,
    commit layers config dpoint self
    = (mkPinToolPlugin (Some T) (pin_layer_info list_of_set T s),
       [ClearMarkers; Transaction "place pin"] ++ body ++ [Commit], None)
    ∧ (Commit ∉ body)
    ∧ (∀ description, Transaction description ∉ body)
    ∧ ((∃ lyr label d, InsertText lyr label d ∈ body)
       ↔ (∃ label w h, ConfigSave label w h ∈ body)).
Proof.
  intros Hs HT. unfold commit_place_pin, place_pin. rewrite Hs, HT.
  destruct (pin_layer_info list_of_set T s) as [p|].
  2:{ exists [PrintCaught AttributeError]. split_and!; [done|..].
      - by intros [=]%list_elem_of_singleton.
      - by intros d [=]%list_elem_of_singleton.
      - split; [intros (? & ? & ? & [=]%list_elem_of_singleton)
               |intros (? & ? & ? & [=]%list_elem_of_singleton)]. }
  pose proof (place_boxes_calls layers config dpoint
                (layers_of_groups list_of_set T (pin_layers p))) as Hboxes.
  pose proof (place_texts_calls layers config dpoint
                (layers_of_groups list_of_set T (label_layers p))) as Htexts.
  pose proof (place_texts_saved layers config dpoint
                (layers_of_groups list_of_set T (label_layers p))) as Hsaved.
  destruct (place_boxes layout_layer layers config dpoint _) as [boxes e1].
  destruct (place_texts layout_layer layers config dpoint _) as [texts e2].
  cbn [fst] in *.
  assert (∀ c, c ∈ boxes → ∃ lyr d w h, c = InsertBox lyr d w h) as Hb.
  { intros c [ln ->]%Hboxes. eauto. }
  assert (∀ c, c ∈ texts →
            (∃ lyr l d, c = InsertText lyr l d) ∨ ∃ l w h, c = ConfigSave l w h)
    as Ht.
  { intros c [[ln ->]| ->]%Htexts; eauto 6. }
  clear Hboxes Htexts.
  destruct e1 as [e1|].
  - exists (boxes ++ [PrintCaught e1]). split_and!; [by rewrite <-!app_assoc|..].
    + intros [(? & ? & ? & ? & [=])%Hb|[=]%list_elem_of_singleton]%elem_of_app.
    + intros desc
        [(? & ? & ? & ? & [=])%Hb|[=]%list_elem_of_singleton]%elem_of_app.
    + split.
      * intros (? & ? & ? &
          [(? & ? & ? & ? & [=])%Hb|[=]%list_elem_of_singleton]%elem_of_app).
      * intros (? & ? & ? &
          [(? & ? & ? & ? & [=])%Hb|[=]%list_elem_of_singleton]%elem_of_app).
  - exists ((boxes ++ texts)
            ++ match e2 with Some e => [PrintCaught e] | None => [] end).
    assert (∀ c : HostCall Float,
              c ∈ match e2 with Some e => [PrintCaught e] | None => [] end →
                 ∃ e, c = PrintCaught e) as Hp.
    { intros c. destruct e2; [intros ->%list_elem_of_singleton; eauto|].
      by intros ?%elem_of_nil. }
    split_and!; [by rewrite <-!app_assoc|..].
    + intros [[(? & ? & ? & ? & [=])%Hb
              |[(? & ? & ? & [=])|(? & ? & ? & [=])]%Ht]%elem_of_app
             |[? [=]]%Hp]%elem_of_app.
    + intros desc [[(? & ? & ? & ? & [=])%Hb
              |[(? & ? & ? & [=])|(? & ? & ? & [=])]%Ht]%elem_of_app
             |[? [=]]%Hp]%elem_of_app.
    + split.
      * intros (lyr & l & d & [[(? & ? & ? & ? & [=])%Hb|Hin]%elem_of_app
                              |[? [=]]%Hp]%elem_of_app).
        destruct (proj1 Hsaved) as (l' & w & h & Hsave); [eauto|].
        exists l', w, h. apply elem_of_app. left. apply elem_of_app. by right.
      * intros (l & w & h & [[(? & ? & ? & ? & [=])%Hb|Hin]%elem_of_app
                            |[? [=]]%Hp]%elem_of_app).
        destruct (proj2 Hsaved) as (lyr & l' & d & Hins); [eauto|].
        exists lyr, l', d. apply elem_of_app. left. apply elem_of_app. by right.
Qed.

(** X19: on a table whose short names are pairwise different and are not layer
    names, a click right after activation places the pin for the entry the
    activation found: [commit_place_pin] resolves the short name that
    [activated] put into the configuration to the same entry. *)
Theorem commit_after_activated {Path : Type} (pdk_info_factory : Factory Path)
    (tech_name : string) (current_layer : option (option LayerProperties))
    (view_layers : list LayerProperties) config dpoint (T : PinPDKInfo)
    (s : string) :
  (∀ xs x, x ∈ list_of_set xs ↔ x ∈ xs) →
  pdk_info pdk_info_factory tech_name = Some T →
  NoDup (short_layer_name <$> pin_layer_infos T) →
  (∀ q g, q ∈ pin_layer_infos T → g ∈ layer_group_definitions T →
          short_layer_name q ∉ layers g) →
  config_short_layer_name
    (activated list_of_set pdk_info_factory (Some tech_name) current_layer
       config).2 = Some s →
  config_short_layer_name config = None →
  (commit view_layers
     (activated list_of_set pdk_info_factory (Some tech_name) current_layer
        config).2
     dpoint
     (activated list_of_set pdk_info_factory (Some tech_name) current_layer
        config).1.1).1.1
  = (activated list_of_set pdk_info_factory (Some tech_name) current_layer
       config).1.1.
Proof.
  intros Helem HT Hnodup Hfresh Hsel Hnone.
  unfold activated, update_tech in *. cbn [fst snd] in *. rewrite HT in *.
  destruct (get_current_layer_name current_layer) as [n|];
    [|by rewrite Hnone in Hsel].
  destruct (pin_layer_info list_of_set T n) as [p|] eqn:Hp;
    [|by rewrite Hnone in Hsel].
  cbn in Hsel. simplify_eq.
  unfold commit_place_pin. cbn [config_short_layer_name self_pdk_info].
  pose proof (pin_layer_info_elem list_of_set T n p Hp) as Hin.
  rewrite (pin_layer_info_fresh_short_name list_of_set Helem T p) by eauto.
  by destruct (place_pin _ _ _ _ _ _ _).
Qed.

End PluginExtras.

(** ** The further properties on the example tables *)

Lemma layers_of_groups_member_witness :
  "Metal3.pin" ∈ layers_of_groups first_seen example_pdk_info
                    ["Metal3.PinLayers"; "Metal3.LabelLayers"].
Proof.
  apply (layers_of_groups_member first_seen first_seen_elem example_pdk_info).
  exists (mkNamedLayerGroup "Metal3.PinLayers" ["Metal3.pin"]).
  split_and!; compute_done.
Defined.

Lemma layers_of_groups_app_witness :
  list_to_set (layers_of_groups first_seen example_pdk_info
                 (["IND.PinLayers"] ++ ["IND.LabelLayers"]))
  =@{gset LayerUniqueName}
  list_to_set (layers_of_groups first_seen example_pdk_info ["IND.PinLayers"])
  ∪ list_to_set
      (layers_of_groups first_seen example_pdk_info ["IND.LabelLayers"]).
Proof.
  exact (proj1 (layers_of_groups_app first_seen first_seen_elem
                  example_pdk_info ["IND.PinLayers"] ["IND.LabelLayers"])).
Defined.

(** The table of [dump_example_pdk_info] has pairwise different short
    names, none of which is a layer name. *)
Lemma pin_layer_info_own_short_name_witness :
  pin_layer_info first_seen example_pdk_info "TopMetal2"
  = Some (mkPinLayerInfo "TopMetal2" ["TopMetal2.RelatedLayers"]
            ["TopMetal2.PinLayers"] ["TopMetal2.LabelLayers"]).
Proof.
  apply (pin_layer_info_own_short_name first_seen first_seen_elem
           example_pdk_info
           (mkPinLayerInfo "TopMetal2" ["TopMetal2.RelatedLayers"]
              ["TopMetal2.PinLayers"] ["TopMetal2.LabelLayers"])).
  - compute_done.
  - apply Forall_forall. compute_done.
  - compute_done.
Defined.

(** In that table the expansions of different entries share no layer. *)
Lemma pin_layer_info_layer_of_entry_witness :
  pin_layer_info first_seen example_pdk_info "GatPoly.nofill"
  = Some (mkPinLayerInfo "GatPoly" ["GatPoly.RelatedLayers"]
            ["GatPoly.PinLayers"] ["GatPoly.LabelLayers"]).
Proof.
  apply (pin_layer_info_layer_of_entry first_seen first_seen_elem
           example_pdk_info).
  - intros q g Hq Hg. revert g Hg. apply Forall_forall.
    revert q Hq. apply Forall_forall. compute_done.
  - refine (proj1 (Forall_forall _ _) _). compute_done.
  - compute_done.
  - compute_done.
Defined.

Lemma factory_init_same_files_witness :
  factory_init String.le override_glob override_fs ["user"; "pdks"]
  = factory_init String.le override_glob override_fs ["pdks"; "user"; "pdks"].
Proof.
  apply (factory_init_same_files String.le override_glob override_fs).
  intros f. split; intros (dir & Hdir & Hf); exists dir; (split; [|done]);
    clear Hf; set_solver.
Defined.

Lemma factory_init_last_declaring_file_witness :
  pdk_info (factory_init String.le override_glob override_fs ["user"; "pdks"])
    "sg13g2" = Some sg13g2_override.
Proof.
  assert (json_files String.le override_glob ["user"; "pdks"]
          = ["pdks/ihp-sg13g2.json"; "user/sg13g2.json"]) as Hfiles
    by (by vm_compute).
  apply (factory_init_last_declaring_file String.le override_glob override_fs
           ["user"; "pdks"] "user/sg13g2.json" sg13g2_override).
  - compute_done.
  - by vm_compute.
  - intros g Hg _. revert g Hg. apply Forall_forall.
    rewrite Hfiles. compute_done.
Defined.


Lemma get_current_layer_name_Some_witness :
  "Metal2.pin" ≠ "*/*@*"
  ∧ ∃ lp, Some (Some (mkLayerProperties "" "Metal2.pin" 3 10 2 false true))
          = Some (Some lp)
          ∧ ((lp_name lp ≠ "" ∧ "Metal2.pin" = lp_name lp)
             ∨ (lp_name lp = "" ∧ "Metal2.pin" = lp_source lp)).
Proof.
  exact (get_current_layer_name_Some
           (Some (Some (mkLayerProperties "" "Metal2.pin" 3 10 2 false true)))
           "Metal2.pin" eq_refl).
Defined.

(** Activating on the pin layer of Metal2 preselects [Metal2]. *)
Lemma activated_selection_witness :
  "Metal2"
  ∈ (activated first_seen example_factory (Some "sg13g2")
       (Some (Some (mkLayerProperties "" "Metal2.pin" 3 10 2 false true)))
       (example_config None)).1.2.
Proof.
  apply (activated_selection first_seen example_factory (Some "sg13g2")
           (Some (Some (mkLayerProperties "" "Metal2.pin" 3 10 2 false true)))
           (example_config None) "Metal2").
  - reflexivity.
  - by vm_compute.
Defined.

(** A click with [Metal1] selected: the text layer gets its number from
    [layout.layer]. *)
Lemma commit_place_pin_all_layers_found_witness :
  commit_place_pin first_seen example_layout_layer example_view_layers
    (example_config (Some "Metal1")) example_dpoint
    (mkPinToolPlugin (Some example_pdk_info) None)
  = (mkPinToolPlugin (Some example_pdk_info)
       (Some (mkPinLayerInfo "Metal1" ["Metal1.RelatedLayers"]
                ["Metal1.PinLayers"] ["Metal1.LabelLayers"])),
     [ClearMarkers; Transaction "place pin";
      InsertBox 1 example_dpoint "0.13" "0.13";
      InsertText 825 "VDD" example_dpoint; ConfigSave "VDD" "0.13" "0.13";
      Commit],
     None).
Proof.
  etrans.
  - apply (commit_place_pin_all_layers_found first_seen example_layout_layer
             example_view_layers (example_config (Some "Metal1"))
             example_dpoint (mkPinToolPlugin (Some example_pdk_info) None)
             "Metal1" example_pdk_info
             (mkPinLayerInfo "Metal1" ["Metal1.RelatedLayers"]
                ["Metal1.PinLayers"] ["Metal1.LabelLayers"]));
      [reflexivity|reflexivity|by vm_compute|compute_done|compute_done].
  - by vm_compute.
Defined.

(** The view has no [Metal3.pin]. *)
Lemma commit_place_pin_missing_pin_layer_witness :
  commit_place_pin first_seen example_layout_layer example_view_layers
    (example_config (Some "Metal3")) example_dpoint
    (mkPinToolPlugin (Some example_pdk_info) None)
  = (mkPinToolPlugin (Some example_pdk_info)
       (Some (mkPinLayerInfo "Metal3" ["Metal3.RelatedLayers"]
                ["Metal3.PinLayers"] ["Metal3.LabelLayers"])),
     [ClearMarkers; Transaction "place pin";
      PrintCaught (LayerIndexNotFound "Metal3.pin"); Commit],
     None).
Proof.
  apply (commit_place_pin_missing_pin_layer first_seen example_layout_layer
           example_view_layers (example_config (Some "Metal3"))
           example_dpoint (mkPinToolPlugin (Some example_pdk_info) None)
           "Metal3" example_pdk_info
           (mkPinLayerInfo "Metal3" ["Metal3.RelatedLayers"]
              ["Metal3.PinLayers"] ["Metal3.LabelLayers"])
           [] [] "Metal3.pin");
    [reflexivity|reflexivity|by vm_compute|by vm_compute|constructor
    |by vm_compute].
Defined.

(** The view has [Metal2.pin] and no [Metal2.text]: the box stays. *)
Lemma commit_place_pin_missing_label_layer_witness :
  commit_place_pin first_seen example_layout_layer example_view_layers
    (example_config (Some "Metal2")) example_dpoint
    (mkPinToolPlugin (Some example_pdk_info) None)
  = (mkPinToolPlugin (Some example_pdk_info)
       (Some (mkPinLayerInfo "Metal2" ["Metal2.RelatedLayers"]
                ["Metal2.PinLayers"] ["Metal2.LabelLayers"])),
     [ClearMarkers; Transaction "place pin";
      InsertBox 3 example_dpoint "0.13" "0.13";
      PrintCaught (LayerIndexNotFound "Metal2.text"); Commit],
     None).
Proof.
  etrans.
  - apply (commit_place_pin_missing_label_layer first_seen
             example_layout_layer example_view_layers
             (example_config (Some "Metal2")) example_dpoint
             (mkPinToolPlugin (Some example_pdk_info) None)
             "Metal2" example_pdk_info
             (mkPinLayerInfo "Metal2" ["Metal2.RelatedLayers"]
                ["Metal2.PinLayers"] ["Metal2.LabelLayers"])
             [] [] "Metal2.text");
      [reflexivity|reflexivity|by vm_compute|compute_done|by vm_compute
      |constructor|by vm_compute].
  - by vm_compute.
Defined.

(** A short name that is not in the table: an empty transaction. *)
Lemma commit_place_pin_transaction_witness :
  ∃ body,
    commit_place_pin first_seen example_layout_layer example_view_layers
      (example_config (Some "Metal9")) example_dpoint
      (mkPinToolPlugin (Some example_pdk_info) None)
    = (mkPinToolPlugin (Some example_pdk_info)
         (pin_layer_info first_seen example_pdk_info "Metal9"),
       [ClearMarkers; Transaction "place pin"] ++ body ++ [Commit], None)
    ∧ (Commit ∉ body)
    ∧ (∀ description, Transaction description ∉ body)
    ∧ ((∃ lyr label d, InsertText lyr label d ∈ body)
       ↔ (∃ label w h, ConfigSave label w h ∈ body)).
Proof.
  exact (commit_place_pin_transaction first_seen example_layout_layer
           example_view_layers (example_config (Some "Metal9"))
           example_dpoint (mkPinToolPlugin (Some example_pdk_info) None)
           "Metal9" example_pdk_info eq_refl eq_refl).
Defined.

(** Activation on [Metal2.pin], then a click. *)
Lemma commit_after_activated_witness :
  (commit_place_pin first_seen example_layout_layer example_view_layers
     (activated first_seen example_factory (Some "sg13g2")
        (Some (Some (mkLayerProperties "" "Metal2.pin" 3 10 2 false true)))
        (example_config None)).2
     example_dpoint
     (activated first_seen example_factory (Some "sg13g2")
        (Some (Some (mkLayerProperties "" "Metal2.pin" 3 10 2 false true)))
        (example_config None)).1.1).1.1
  = (activated first_seen example_factory (Some "sg13g2")
       (Some (Some (mkLayerProperties "" "Metal2.pin" 3 10 2 false true)))
       (example_config None)).1.1.
Proof.
  apply (commit_after_activated first_seen example_layout_layer
           example_factory "sg13g2"
           (Some (Some (mkLayerProperties "" "Metal2.pin" 3 10 2 false true)))
           example_view_layers (example_config None) example_dpoint
           sg13g2_metals "Metal2").
  - apply first_seen_elem.
  - by vm_compute.
  - compute_done.
  - intros q g Hq Hg. revert g Hg. apply Forall_forall.
    revert q Hq. apply Forall_forall. compute_done.
  - by vm_compute.
  - reflexivity.
Defined.

(** X20: whatever item of the combo box is current, [config_from_ui] reads it
    as no selection, when it is the text ["None selected"], or as the short
    name of an entry of the table the items were made from; an entry that
    is itself called ["None selected"] cannot be selected. *)
Theorem config_from_ui_item {Float : Type} (pdk_info : option PinPDKInfo)
    (lv pin_value : string) (w_value h_value : Float) :
  lv ∈ set_pdk_info pdk_info →
  (lv = "None selected"
   ∧ config_short_layer_name (config_from_ui lv pin_value w_value h_value)
     = None)
  ∨ (lv ≠ "None selected"
     ∧ config_short_layer_name (config_from_ui lv pin_value w_value h_value)
       = Some lv
     ∧ ∃ T p, pdk_info = Some T ∧ p ∈ pin_layer_infos T
              ∧ short_layer_name p = lv).
Proof.
  intros Hitem. unfold config_from_ui. cbn [config_short_layer_name].
  destruct (decide (lv = "None selected")) as [Hnone|Hsome]; [by left|].
  right. split_and!; [done..|].
  unfold set_pdk_info in Hitem. destruct pdk_info as [T|].
  - apply elem_of_cons in Hitem as [?|Hitem]; [done|].
    apply list_elem_of_fmap in Hitem as (p & -> & Hp). by exists T, p.
  - by apply list_elem_of_singleton in Hitem.
Qed.

Lemma config_from_ui_item_witness :
  ("Metal2" = "None selected"
   ∧ config_short_layer_name (config_from_ui "Metal2" "VDD" "0.13" "0.13")
     = None)
  ∨ ("Metal2" ≠ "None selected"
     ∧ config_short_layer_name (config_from_ui "Metal2" "VDD" "0.13" "0.13")
       = Some "Metal2"
     ∧ ∃ T p, Some sg13g2_metals = Some T ∧ p ∈ pin_layer_infos T
              ∧ short_layer_name p = "Metal2").
Proof.
  apply (config_from_ui_item (Some sg13g2_metals) "Metal2" "VDD" "0.13" "0.13").
  compute_done.
Defined.
